(** * Perimeter.js: breach detection around a target element

    A shallow embedding of [dist/perimeter.debug.js] (version 0.3.0): the
    outline coercion [formatOutline], the geometry resolver
    [getClientRect], the constructor with [init], [recalculate], [trigger]
    and the monitor's [detect] / [observe].

    Conventions of the embedding.
    - JavaScript numbers are the integers ([Fin z]) together with [NaN]
      and the two infinities.  Integers stand for the doubles that
      represent them exactly (magnitude below 2^53): there arithmetic is
      exact and [ToString] prints plain decimal.  Fractions, rounding and
      overflow of doubles are outside the model; layout quantities of the
      host (offsets, boxes, scroll positions, pointer coordinates) are
      integers.
    - User callbacks are opaque: an invocation is recorded, and the
      callback neither throws nor touches the instance.
    - Strings are sequences of ASCII characters.
    - The document is a read-only parameter [Host] of every operation; the
      script is taken to run with [document.body] present.
    - The mutable objects (the [Perimeter] instances, the closure variable
      [instances], the listeners handed to the host and the user callbacks
      that were invoked) live in a [World] that is threaded through a
      state-and-exception monad. *)

From Stdlib Require Import ZArith Ascii String List Bool Lia.
From Stdlib Require Import Numbers.DecimalString Numbers.DecimalPos.
From stdpp Require Import base option list strings gmap.

Set Warnings "-register-all".

Local Open Scope string_scope.
Local Open Scope Z_scope.

(** ** JavaScript values *)

Module Js.

Inductive num : Type :=
| Fin (z : Z)
| NaN
| PInf
| NInf.

Inductive value : Type :=
| VUndef
| VNull
| VBool (b : bool)
| VNum (n : num)
| VStr (s : string)
| VArr (elems : list value).

Inductive error : Type :=
| TypeError
| Error (message : string).

(** Completion of a pure builtin or method: a result or a thrown error. *)
Inductive completion (A : Type) : Type :=
| Normal (a : A)
| Abrupt (e : error).
Arguments Normal {A} a.
Arguments Abrupt {A} e.

(** *** Arithmetic and comparison of numbers *)

Definition num_add (a b : num) : num :=
  match a, b with
  | NaN, _ | _, NaN => NaN
  | PInf, NInf | NInf, PInf => NaN
  | PInf, _ | _, PInf => PInf
  | NInf, _ | _, NInf => NInf
  | Fin x, Fin y => Fin (x + y)
  end.

Definition num_neg (a : num) : num :=
  match a with
  | Fin x => Fin (- x)
  | NaN => NaN
  | PInf => NInf
  | NInf => PInf
  end.

Definition num_sub (a b : num) : num := num_add a (num_neg b).

(** [a < b]; every comparison with [NaN] is false. *)
Definition num_lt (a b : num) : bool :=
  match a, b with
  | NaN, _ | _, NaN => false
  | Fin x, Fin y => x <? y
  | NInf, NInf => false
  | NInf, _ => true
  | _, NInf => false
  | PInf, _ => false
  | Fin _, PInf => true
  end.

Definition num_gt (a b : num) : bool := num_lt b a.

(** [a >= b] is [not (a < b)] except that it is false on [NaN]. *)
Definition num_ge (a b : num) : bool :=
  match a, b with
  | NaN, _ | _, NaN => false
  | _, _ => negb (num_lt a b)
  end.

(** *** Characters *)

Definition code (c : ascii) : N := N_of_ascii c.

Definition is_digit (c : ascii) : bool := ((48 <=? code c) && (code c <=? 57))%N.

Definition digit_val (c : ascii) : Z := Z.of_N (code c - 48).

(** White space and line terminators within ASCII: TAB, LF, VT, FF, CR, SP. *)
Definition is_ws (c : ascii) : bool :=
  (((9 <=? code c) && (code c <=? 13)) || (code c =? 32))%N.

Definition is_hex_digit (c : ascii) : bool :=
  (is_digit c || ((65 <=? code c) && (code c <=? 70))
              || ((97 <=? code c) && (code c <=? 102)))%N.

Definition is_octal_digit (c : ascii) : bool := ((48 <=? code c) && (code c <=? 55))%N.

Definition is_binary_digit (c : ascii) : bool := ((48 <=? code c) && (code c <=? 49))%N.

Fixpoint dropwhile (p : ascii -> bool) (l : list ascii) : list ascii :=
  match l with
  | [] => []
  | c :: r => if p c then dropwhile p r else l
  end.

Fixpoint takewhile (p : ascii -> bool) (l : list ascii) : list ascii :=
  match l with
  | [] => []
  | c :: r => if p c then c :: takewhile p r else []
  end.

Definition is_nil (l : list ascii) : bool :=
  match l with [] => true | _ => false end.

Definition chars (s : string) : list ascii := list_ascii_of_string s.

Fixpoint chars_eqb (a b : list ascii) : bool :=
  match a, b with
  | [], [] => true
  | x :: a', y :: b' => Ascii.eqb x y && chars_eqb a' b'
  | _, _ => false
  end.

(** *** ToString *)

Definition Z_to_string (z : Z) : string := NilEmpty.string_of_int (Z.to_int z).

Definition num_to_string (n : num) : string :=
  match n with
  | Fin z => Z_to_string z
  | NaN => "NaN"
  | PInf => "Infinity"
  | NInf => "-Infinity"
  end.

(** [Array.prototype.join] with the separator [","]. *)
Fixpoint join (parts : list string) : string :=
  match parts with
  | [] => ""
  | [s] => s
  | s :: rest => String.append s (String.append "," (join rest))
  end.

(** [ToString]; an array prints as the join of its elements, where
    [undefined] and [null] elements print as the empty string. *)
Fixpoint ToString (v : value) : string :=
  match v with
  | VUndef => "undefined"
  | VNull => "null"
  | VBool true => "true"
  | VBool false => "false"
  | VNum n => num_to_string n
  | VStr s => s
  | VArr elems =>
      join (List.map (fun e => match e with
                               | VUndef | VNull => ""
                               | _ => ToString e
                               end) elems)
  end.

(** *** parseInt(string, 10) *)

(** Value of the longest prefix of decimal digits, read left to right. *)
Fixpoint read_digits (l : list ascii) (acc : Z) : Z :=
  match l with
  | [] => acc
  | c :: r => if is_digit c then read_digits r (10 * acc + digit_val c) else acc
  end.

Definition parse_unsigned (l : list ascii) : option Z :=
  match l with
  | [] => None
  | c :: _ => if is_digit c then Some (read_digits l 0) else None
  end.

(** [parseInt(s, 10)]: leading white space is skipped, one sign is read,
    then the longest run of decimal digits; no digit gives [NaN].  With an
    explicit radix of 10 no [0x] prefix is recognised. *)
Definition parseInt_string (s : string) : num :=
  let l := dropwhile is_ws (chars s) in
  match l with
  | c :: r =>
      if Ascii.eqb c "-" then
        match parse_unsigned r with Some z => Fin (- z) | None => NaN end
      else if Ascii.eqb c "+" then
        match parse_unsigned r with Some z => Fin z | None => NaN end
      else
        match parse_unsigned l with Some z => Fin z | None => NaN end
  | [] => NaN
  end.

(** [parseInt(v, 10)]: the argument is first converted with [ToString]. *)
Definition parseInt (v : value) : num := parseInt_string (ToString v).

(** *** Is a string a numeric literal (StringToNumber differs from NaN)? *)

Definition decimal_digits (l : list ascii) : bool :=
  negb (is_nil l) && forallb is_digit l.

Definition signed_integer (l : list ascii) : bool :=
  match l with
  | c :: r => if Ascii.eqb c "+" || Ascii.eqb c "-" then decimal_digits r
              else decimal_digits l
  | [] => false
  end.

Definition exponent_part_opt (l : list ascii) : bool :=
  match l with
  | [] => true
  | c :: r => (Ascii.eqb c "e" || Ascii.eqb c "E") && signed_integer r
  end.

(** StrUnsignedDecimalLiteral: [Infinity], [digits . digits? exp?],
    [. digits exp?] or [digits exp?]. *)
Definition str_unsigned_decimal (l : list ascii) : bool :=
  if chars_eqb l (chars "Infinity") then true
  else
    let ip := takewhile is_digit l in
    let r := dropwhile is_digit l in
    match r with
    | c :: r' =>
        if Ascii.eqb c "." then
          let fp := takewhile is_digit r' in
          negb (is_nil ip && is_nil fp) && exponent_part_opt (dropwhile is_digit r')
        else negb (is_nil ip) && exponent_part_opt r
    | [] => negb (is_nil ip)
    end.

Definition str_decimal (l : list ascii) : bool :=
  match l with
  | c :: r => if Ascii.eqb c "+" || Ascii.eqb c "-" then str_unsigned_decimal r
              else str_unsigned_decimal l
  | [] => false
  end.

(** NonDecimalIntegerLiteral: [0x], [0o] or [0b] and at least one digit of
    that radix; no sign. *)
Definition non_decimal (l : list ascii) : bool :=
  match l with
  | z :: x :: ds =>
      Ascii.eqb z "0" && negb (is_nil ds) &&
      (((Ascii.eqb x "x" || Ascii.eqb x "X") && forallb is_hex_digit ds)
       || ((Ascii.eqb x "o" || Ascii.eqb x "O") && forallb is_octal_digit ds)
       || ((Ascii.eqb x "b" || Ascii.eqb x "B") && forallb is_binary_digit ds))
  | _ => false
  end.

Definition trim (l : list ascii) : list ascii :=
  List.rev (dropwhile is_ws (List.rev (dropwhile is_ws l))).

(** The empty (or all-blank) string converts to 0, hence is numeric. *)
Definition is_numeric_string (s : string) : bool :=
  let t := trim (chars s) in
  is_nil t || str_decimal t || non_decimal t.

(** *** isNaN, truthiness, indexing *)

(** [isNaN(v)]: [ToNumber(v)] is [NaN].  An array is first converted to
    its string. *)
Definition isNaN (v : value) : bool :=
  match v with
  | VUndef => true
  | VNull => false
  | VBool _ => false
  | VNum NaN => true
  | VNum _ => false
  | VStr s => negb (is_numeric_string s)
  | VArr _ => negb (is_numeric_string (ToString v))
  end.

Definition truthy (v : value) : bool :=
  match v with
  | VUndef | VNull => false
  | VBool b => b
  | VNum (Fin z) => negb (z =? 0)
  | VNum NaN => false
  | VNum _ => true
  | VStr s => negb (String.eqb s "")
  | VArr _ => true
  end.

Fixpoint string_at (s : string) (i : nat) : value :=
  match s, i with
  | EmptyString, _ => VUndef
  | String c _, O => VStr (String c EmptyString)
  | String _ r, S j => string_at r j
  end.

(** [v[i]]: reading a property of [undefined] or [null] throws. *)
Definition get_index (v : value) (i : nat) : completion value :=
  match v with
  | VUndef | VNull => Abrupt TypeError
  | VArr elems => Normal (nth i elems VUndef)
  | VStr s => Normal (string_at s i)
  | VBool _ | VNum _ => Normal VUndef
  end.

End Js.
Export Js.

(** ** Outline coercion *)

(** The loop of [formatOutline]: [steps] iterations remain, [i] is the
    loop counter and [arr] the array built so far. *)
Fixpoint formatOutline_loop (steps i : nat) (outline : value) (arr : list num)
  : completion (list num) :=
  match steps with
  | O => Normal arr
  | S k =>
      if negb (isNaN outline) then
        formatOutline_loop k (S i) outline (arr ++ [parseInt outline])
      else
        match get_index outline i with
        | Abrupt e => Abrupt e
        | Normal x =>
            formatOutline_loop k (S i) outline
              (arr ++ [if negb (truthy x) then Fin 0 else parseInt x])
        end
  end.

(** [Perimeter.prototype.formatOutline]: [while (i < 4)] from [i = 0]. *)
Definition formatOutline (outline : value) : completion (list num) :=
  formatOutline_loop 4 0 outline [].

(** An array of numbers as a value. *)
Definition num_array (l : list num) : value := VArr (List.map VNum l).

(** ** The host document *)

(** Elements are named by handles; [element] gives the current layout of
    each one. *)
Abbreviation handle := nat.

Record Box := {
  box_top : Z;
  box_left : Z;
  box_width : Z;
  box_height : Z
}.

Record Element := {
  offsetTop : Z;
  offsetLeft : Z;
  offsetWidth : Z;
  offsetHeight : Z;
  (** [None] when the object has no [getBoundingClientRect]. *)
  getBoundingClientRect : option Box
}.

Inductive EventTarget : Type :=
| Window
| Document
| Node (e : handle).

(** What an object offers to [_addEventListener]. *)
Inductive EventModel : Type :=
| W3C
| Microsoft
| NoEvents.

Record Host := {
  docElem_scrollTop : Z;
  docElem_scrollLeft : Z;
  docElem_clientTop : Z;
  docElem_clientLeft : Z;
  docBody_scrollTop : Z;
  docBody_scrollLeft : Z;
  (** [doc.getElementById] *)
  ids : gmap string handle;
  element : handle -> Element;
  event_model : EventTarget -> EventModel
}.

Record MouseEvent := {
  clientX : Z;
  clientY : Z
}.

(** ** Perimeter objects *)

Abbreviation loc := nat.

(** A user function, by name. *)
Abbreviation callback := nat.

Inductive TargetRef : Type :=
| ById (id : string)
| ByRef (e : handle).

Record Options := {
  opt_target : option TargetRef;
  opt_outline : value;
  opt_debug : bool;
  opt_monitor : option handle;
  (** [None] when the property is absent or not a function. *)
  opt_onBreach : option callback;
  opt_onLeave : option callback
}.

Record Rect := {
  rect_width : Z;
  rect_height : Z;
  rect_top : Z;
  rect_left : Z
}.

(** The debug overlay: the style of its [div]. *)
Record Boundary := {
  style_top : string;
  style_left : string;
  style_width : string;
  style_height : string
}.

Record Perimeter := {
  options : Options;
  breaches : list (Z * Z);
  alarm : bool;
  outline : value;
  target : option handle;
  boundary : option Boundary;
  rects : Rect;
  (** [monitor.event] *)
  monitor_event : option MouseEvent
}.

Definition with_outline (o : value) (p : Perimeter) : Perimeter :=
  {| options := options p; breaches := breaches p; alarm := alarm p;
     outline := o; target := target p; boundary := boundary p;
     rects := rects p; monitor_event := monitor_event p |}.

Definition with_rects (r : Rect) (p : Perimeter) : Perimeter :=
  {| options := options p; breaches := breaches p; alarm := alarm p;
     outline := outline p; target := target p; boundary := boundary p;
     rects := r; monitor_event := monitor_event p |}.

Definition with_boundary (b : option Boundary) (p : Perimeter) : Perimeter :=
  {| options := options p; breaches := breaches p; alarm := alarm p;
     outline := outline p; target := target p; boundary := b;
     rects := rects p; monitor_event := monitor_event p |}.

Definition with_alarm (a : bool) (p : Perimeter) : Perimeter :=
  {| options := options p; breaches := breaches p; alarm := a;
     outline := outline p; target := target p; boundary := boundary p;
     rects := rects p; monitor_event := monitor_event p |}.

Definition with_breaches (bs : list (Z * Z)) (p : Perimeter) : Perimeter :=
  {| options := options p; breaches := bs; alarm := alarm p;
     outline := outline p; target := target p; boundary := boundary p;
     rects := rects p; monitor_event := monitor_event p |}.

Definition with_event (e : MouseEvent) (p : Perimeter) : Perimeter :=
  {| options := options p; breaches := breaches p; alarm := alarm p;
     outline := outline p; target := target p; boundary := boundary p;
     rects := rects p; monitor_event := Some e |}.

(** An object made by [new Perimeter(..)]: [Bare] when the constructor
    returned before assigning any field. *)
Inductive Object : Type :=
| Bare
| Built (p : Perimeter).

(** ** The world *)

Inductive Handler : Type :=
| Observe (l : loc)      (** the closure [monitor.observe] of the instance at [l] *)
| Recalculate.           (** [Perimeter.prototype.recalculate] *)

Inductive HostCall : Type :=
| AddEventListener (obj : EventTarget) (evt : string) (fn : Handler)
| AttachEvent (obj : EventTarget) (evt : string) (fn : Handler)
| AppendChild (owner : loc).

Inductive Payload : Type :=
| WithEvent (e : MouseEvent)
| WithString (s : string).

Record Invocation := {
  callee : callback;
  (** the key of the [events] table it was found under *)
  via : string;
  receiver : loc;
  argument : Payload
}.

Record World := {
  heap : list Object;
  (** the closure variable [instances] *)
  instances : list loc;
  (** listeners and nodes handed to the host, oldest first *)
  host_calls : list HostCall;
  (** user callbacks invoked, oldest first *)
  invoked : list Invocation
}.

Definition with_heap (hp : list Object) (w : World) : World :=
  {| heap := hp; instances := instances w; host_calls := host_calls w;
     invoked := invoked w |}.

Definition alarmState (w : World) (l : loc) : option bool :=
  match heap w !! l with
  | Some (Built p) => Some (alarm p)
  | _ => None
  end.

Definition breachLog (w : World) (l : loc) : option (list (Z * Z)) :=
  match heap w !! l with
  | Some (Built p) => Some (breaches p)
  | _ => None
  end.

Definition rectangle (w : World) (l : loc) : option Rect :=
  match heap w !! l with
  | Some (Built p) => Some (rects p)
  | _ => None
  end.

(** ** State and exceptions *)

Inductive outcome (A : Type) : Type :=
| Ret (a : A)
| Throw (e : error)
| Unmodelled.   (** the step leaves the fragment of JavaScript modelled here *)
Arguments Ret {A} a.
Arguments Throw {A} e.
Arguments Unmodelled {A}.

Definition M (A : Type) : Type := World -> outcome A * World.

Definition ret {A} (a : A) : M A := fun w => (Ret a, w).

Definition throw {A} (e : error) : M A := fun w => (Throw e, w).

Definition unmodelled {A} : M A := fun w => (Unmodelled, w).

Definition bind {A B} (m : M A) (k : A -> M B) : M B :=
  fun w =>
    match m w with
    | (Ret a, w') => k a w'
    | (Throw e, w') => (Throw e, w')
    | (Unmodelled, w') => (Unmodelled, w')
    end.

Notation "'let!' x ':=' m 'in' k" := (bind m (fun x => k))
  (at level 10, x name, m at level 100, k at level 200).
Notation "m ';;' k" := (bind m (fun _ => k))
  (at level 100, k at level 200, right associativity).

Definition lift {A} (c : completion A) : M A :=
  match c with
  | Normal a => ret a
  | Abrupt e => throw e
  end.

Definition read (l : loc) : M Object :=
  fun w => match heap w !! l with
           | Some o => (Ret o, w)
           | None => (Unmodelled, w)
           end.

Definition write (l : loc) (o : Object) : M unit :=
  fun w => (Ret tt, with_heap (<[l := o]> (heap w)) w).

(** [new]: a fresh object without own properties. *)
Definition alloc : M loc :=
  fun w => (Ret (length (heap w)), with_heap (heap w ++ [Bare]) w).

Definition call_host (c : HostCall) : M unit :=
  fun w => (Ret tt, {| heap := heap w; instances := instances w;
                       host_calls := host_calls w ++ [c];
                       invoked := invoked w |}).

Definition invoke (i : Invocation) : M unit :=
  fun w => (Ret tt, {| heap := heap w; instances := instances w;
                       host_calls := host_calls w;
                       invoked := invoked w ++ [i] |}).

(** [instances.push(this)] *)
Definition register (l : loc) : M unit :=
  fun w => (Ret tt, {| heap := heap w; instances := instances w ++ [l];
                       host_calls := host_calls w;
                       invoked := invoked w |}).

Definition registry : M (list loc) := fun w => (Ret (instances w), w).

(** ** Helpers of the library *)

(** [a || b] on host numbers. *)
Definition or_else (a b : Z) : Z := if a =? 0 then b else a.

(** [_addEventListener(obj, evt, fn)] *)
Definition _addEventListener (h : Host) (obj : EventTarget) (evt : string)
    (fn : Handler) : M bool :=
  match event_model h obj with
  | W3C => call_host (AddEventListener obj evt fn) ;; ret true
  | Microsoft => call_host (AttachEvent obj (String.append "on" evt) fn) ;; ret true
  | NoEvents => ret false
  end.

(** [Perimeter.prototype.getScrollPos]: (top, left). *)
Definition getScrollPos (h : Host) : Z * Z :=
  (or_else (docElem_scrollTop h) (docBody_scrollTop h),
   or_else (docElem_scrollLeft h) (docBody_scrollLeft h)).

Definition unsupported : string :=
  "Perimeter.js detected that your browser does not support getBoundingClientRect".

(** [Perimeter.prototype.getClientRect]; [elem] is [None] for [null]. *)
Definition getClientRect (h : Host) (elem : option handle) : completion Rect :=
  let scrollPos := getScrollPos h in
  match elem with
  | None => Abrupt TypeError
  | Some e =>
      match getBoundingClientRect (element h e) with
      | None => Abrupt (Error unsupported)
      | Some box =>
          Normal {| rect_width := or_else (box_width box) (offsetWidth (element h e));
                    rect_height := or_else (box_height box) (offsetHeight (element h e));
                    rect_top := box_top box + fst scrollPos - docElem_clientTop h;
                    rect_left := box_left box + snd scrollPos - docElem_clientLeft h |}
      end
  end.

(** ** The debug overlay *)

(** The side [i] of a formatted outline; a missing entry reads as
    [undefined], which is [NaN] in arithmetic. *)
Definition side (o : list num) (i : nat) : num := nth i o NaN.

Definition px (n : num) : string := String.append (num_to_string n) "px".

(** [Boundary.reflow(target, outline)] with [_recalculateRect]: the style
    the overlay receives.  [arg] is the [outline] argument ([VUndef] when
    omitted); [perimeter.rects] is an object, so it is the one used. *)
Definition reflow (p : Perimeter) (arg : value) : completion Boundary :=
  match formatOutline (if truthy arg then arg else outline p) with
  | Abrupt e => Abrupt e
  | Normal o =>
      let rs := rects p in
      let newRect_width := num_add (Fin (rect_width rs)) (num_add (side o 1) (side o 3)) in
      let newRect_height := num_add (Fin (rect_height rs)) (num_add (side o 0) (side o 2)) in
      let newRect_top := num_sub (Fin (rect_top rs)) (side o 0) in
      let newRect_left := num_sub (Fin (rect_left rs)) (side o 3) in
      Normal {| style_top := px newRect_top;
                style_left := px newRect_left;
                style_width := px newRect_width;
                style_height := px newRect_height |}
  end.

(** [this.boundary.reflow()] on the instance at [l]. *)
Definition reflow_boundary (l : loc) (p : Perimeter) : M unit :=
  let! b := lift (reflow p VUndef) in
  write l (Built (with_boundary (Some b) p)).

(** [new this.Boundary(this)]: [create] reflows and appends the [div]. *)
Definition new_Boundary (l : loc) (p : Perimeter) : M Boundary :=
  let! b := lift (reflow p (outline p)) in
  call_host (AppendChild l) ;;
  ret b.

(** ** trigger *)

(** [Perimeter.prototype.trigger(event, eData)]; [eData] is [None] when
    the argument is omitted, and is then replaced by [typeof undefined]. *)
Definition trigger (l : loc) (p : Perimeter) (event : string)
    (eData : option MouseEvent) : M unit :=
  let eData' := match eData with
                | Some e => WithEvent e
                | None => WithString "undefined"
                end in
  let handler :=
    if String.eqb event "breach" then opt_onBreach (options p)
    else if String.eqb event "leave" then opt_onLeave (options p)
    else None in
  match handler with
  | Some f => invoke {| callee := f; via := event; receiver := l;
                        argument := eData' |}
  | None => ret tt
  end.

(** ** The monitor *)

(** The outline as [detect] reads it: an array of numbers. *)
Fixpoint as_nums (elems : list value) : option (list num) :=
  match elems with
  | [] => Some []
  | VNum n :: r => option_map (cons n) (as_nums r)
  | _ => None
  end.

Definition outline_nums (o : value) : option (list num) :=
  match o with
  | VArr elems => as_nums elems
  | _ => None
  end.

(** The geometry one call of [detect] compares the pointer with. *)
Record Zone := {
  maxTop : num;
  maxLeft : num;
  (** [(maxTop + rects.height) + (outline[0] + outline[2])] *)
  bottom : num;
  (** [(maxLeft + rects.width) + (outline[1] + outline[3])] *)
  right : num
}.

Definition zone (h : Host) (t : handle) (rs : Rect) (o : list num) : Zone :=
  let scrollPos := getScrollPos h in
  let mt := parseInt (VNum (num_sub (num_sub (Fin (offsetTop (element h t)))
                                             (Fin (fst scrollPos))) (side o 0))) in
  let ml := parseInt (VNum (num_sub (num_sub (Fin (offsetLeft (element h t)))
                                             (Fin (snd scrollPos))) (side o 3))) in
  {| maxTop := mt;
     maxLeft := ml;
     bottom := num_add (num_add mt (Fin (rect_height rs)))
                       (num_add (side o 0) (side o 2));
     right := num_add (num_add ml (Fin (rect_width rs)))
                      (num_add (side o 1) (side o 3)) |}.

(** The condition of [case 'breach']. *)
Definition breach_test (z : Zone) (posX posY : Z) : bool :=
  num_ge (Fin posY) (maxTop z) && num_lt (Fin posY) (bottom z) &&
  num_ge (Fin posX) (maxLeft z) && num_lt (Fin posX) (right z).

(** The condition of [case 'leave']. *)
Definition leave_test (z : Zone) (posX posY : Z) : bool :=
  num_lt (Fin posY) (maxTop z) || num_gt (Fin posY) (bottom z) ||
  num_lt (Fin posX) (maxLeft z) || num_gt (Fin posX) (right z).

(** [monitor.detect(state)] of the instance at [l].  An outline that is
    not an array of numbers (it can only get there by an assignment from
    outside) takes the coercions of [-] and [+] out of the modelled
    fragment. *)
Definition detect (h : Host) (l : loc) (state : string) : M unit :=
  let! obj := read l in
  match obj with
  | Bare => unmodelled
  | Built p =>
      match monitor_event p, target p with
      | None, _ | _, None => throw TypeError
      | Some ev, Some t =>
          match outline_nums (outline p) with
          | None => unmodelled
          | Some o =>
              let posX := clientX ev in
              let posY := clientY ev in
              let z := zone h t (rects p) o in
              if String.eqb state "breach" then
                if breach_test z posX posY then
                  let p1 := with_breaches (breaches p ++ [(posX, posY)]) p in
                  write l (Built p1) ;;
                  trigger l p1 "breach" (Some ev) ;;
                  write l (Built (with_alarm true p1))
                else ret tt
              else if String.eqb state "leave" then
                if leave_test z posX posY then
                  trigger l p "leave" None ;;
                  write l (Built (with_alarm false p))
                else ret tt
              else ret tt
          end
      end
  end.

(** [monitor.observe(e)] of the instance at [l]. *)
Definition observe (h : Host) (l : loc) (e : MouseEvent) : M unit :=
  let! obj := read l in
  match obj with
  | Bare => unmodelled
  | Built p =>
      write l (Built (with_event e p)) ;;
      detect h l (if alarm p then "leave" else "breach")
  end.

(** ** init, the constructor, recalculate *)

(** [Perimeter.prototype.init(options)] on the instance at [l]. *)
Definition init (h : Host) (l : loc) (opts : Options) : M unit :=
  let! obj := read l in
  match obj with
  | Bare => ret tt
  | Built p =>
      match target p with
      | None => ret tt
      | Some _ =>
          register l ;;
          (if opt_debug opts then
             let! b := new_Boundary l p in
             write l (Built (with_boundary (Some b) p))
           else ret tt) ;;
          _addEventListener h
            (match opt_monitor opts with Some m => Node m | None => Document end)
            "mousemove" (Observe l) ;;
          _addEventListener h Window "resize" Recalculate ;;
          _addEventListener h Document "DOMMouseScroll" (Observe l) ;;
          _addEventListener h Document "mousewheel" (Observe l) ;;
          ret tt
      end
  end.

(** [!options || !options.target || !options.outline] *)
Definition unusable (options : option Options) : bool :=
  match options with
  | None => true
  | Some o =>
      match opt_target o with
      | None => true
      | Some (ById id) => String.eqb id ""
      | Some (ByRef _) => false
      end
      || negb (truthy (opt_outline o))
  end.

Definition resolve_target (h : Host) (t : option TargetRef) : option handle :=
  match t with
  | Some (ById id) => ids h !! id
  | Some (ByRef e) => Some e
  | None => None
  end.

(** [Perimeter(options)].  [with_new] tells [new Perimeter(..)] from a
    plain call, which re-enters with [new] once the options pass the
    first test.  The result is the object handed to the caller, [None] for
    [undefined].  The fields are written to the heap when all are
    computed: an exception on the way leaves an object nobody holds. *)
Definition new_Perimeter (h : Host) (with_new : bool) (options : option Options)
  : M (option loc) :=
  match options with
  | Some opts =>
      if unusable options then
        if with_new then let! l := alloc in ret (Some l) else ret None
      else
        let! l := alloc in
        let! o := lift (formatOutline (opt_outline opts)) in
        let tgt := resolve_target h (opt_target opts) in
        let! r := lift (getClientRect h tgt) in
        write l (Built {| options := opts; breaches := []; alarm := false;
                          outline := num_array o; target := tgt;
                          boundary := None; rects := r;
                          monitor_event := None |}) ;;
        init h l opts ;;
        ret (Some l)
  | None => if with_new then let! l := alloc in ret (Some l) else ret None
  end.

(** The body of the [else] branch of [recalculate] for one [inst]. *)
Definition refresh_rects (h : Host) (l : loc) : M unit :=
  let! obj := read l in
  match obj with
  | Bare => throw TypeError
  | Built p =>
      let! r := lift (getClientRect h (target p)) in
      let p1 := with_rects r p in
      write l (Built p1) ;;
      match opt_debug (options p1), boundary p1 with
      | true, Some _ => reflow_boundary l p1
      | _, _ => ret tt
      end
  end.

(** [i = instances.length; while (i--) { .. instances[i] .. }] over the
    indices still to visit, highest first. *)
Fixpoint broadcast (h : Host) (todo : list loc) : M unit :=
  match todo with
  | [] => ret tt
  | l :: rest => refresh_rects h l ;; broadcast h rest
  end.

(** [Perimeter.prototype.recalculate] with [this]: [Some l] for the
    instance at [l], [None] for a receiver that is no Perimeter (the
    window, when the host calls the resize listener). *)
Definition recalculate (h : Host) (this : option loc) : M unit :=
  match this with
  | Some l =>
      let! obj := read l in
      match obj with
      | Bare => lift (formatOutline VUndef) ;; throw TypeError
      | Built p =>
          let! o := lift (formatOutline (outline p)) in
          let p1 := with_outline (num_array o) p in
          write l (Built p1) ;;
          match opt_debug (options p1), boundary p1 with
          | true, Some _ => reflow_boundary l p1
          | _, _ => ret tt
          end
      end
  | None =>
      let! insts := registry in
      broadcast h (List.rev insts)
  end.

(** ** Vocabulary of the statements *)

(** An input [formatOutline] is meant for: a number or a sequence. *)
Definition accepted (v : value) : bool :=
  match v with
  | VNum _ | VArr _ => true
  | _ => false
  end.

Definition integer_or_NaN (n : num) : bool :=
  match n with Fin _ | NaN => true | _ => false end.

(** A safe non-negative integer: printed in plain decimal by JavaScript. *)
Definition pixel (v : value) : bool :=
  match v with
  | VNum (Fin z) => (0 <=? z) && (z <? 2 ^ 53)
  | _ => false
  end.

(** A valid 4-element outline: [top, right, bottom, left], each a
    non-negative integer. *)
Definition valid_outline (o : value) : bool :=
  match o with
  | VArr elems => (length elems =? 4)%nat && forallb pixel elems
  | _ => false
  end.

(** The invocations of [onBreach]. *)
Definition breach_calls (w : World) : list Invocation :=
  List.filter (fun i => String.eqb (via i) "breach") (invoked w).

(** The pointer is within the breach region of [p] under the layout [h]. *)
Definition in_breach_region (h : Host) (p : Perimeter) (e : MouseEvent) : bool :=
  match target p, outline_nums (outline p) with
  | Some t, Some o => breach_test (zone h t (rects p) o) (clientX e) (clientY e)
  | _, _ => false
  end.

(** A sequence of pointer updates delivered to the monitor of the instance
    at [l], each under the layout of its moment.  A handler that throws
    ends that delivery only. *)
Fixpoint run (l : loc) (updates : list (Host * MouseEvent)) (w : World) : World :=
  match updates with
  | [] => w
  | (h, e) :: rest => run l rest (snd (observe h l e w))
  end.

Definition no_style : Boundary :=
  {| style_top := ""; style_left := ""; style_width := ""; style_height := "" |}.

(** What [recalculate] has no business with: an object with its cached
    rectangle, its outline and the style of its overlay blanked.  Whether
    there is an overlay is kept. *)
Definition beside_geometry (o : Object) : Object :=
  match o with
  | Bare => Bare
  | Built p =>
      Built {| options := options p; breaches := breaches p; alarm := alarm p;
               outline := VUndef; target := target p;
               boundary := option_map (fun _ => no_style) (boundary p);
               rects := {| rect_width := 0; rect_height := 0;
                           rect_top := 0; rect_left := 0 |};
               monitor_event := monitor_event p |}
  end.

(** Nothing changed between two worlds but the geometry of instances. *)
Definition keeps (w w' : World) : Prop :=
  instances w' = instances w /\ host_calls w' = host_calls w /\
  invoked w' = invoked w /\
  forall l, beside_geometry <$> heap w' !! l = beside_geometry <$> heap w !! l.

(** What the sequence branch of [formatOutline] pushes for the entry [x]. *)
Definition entry (x : value) : num :=
  if negb (truthy x) then Fin 0 else parseInt x.

(** ** Sample documents *)

Definition no_element : Element :=
  {| offsetTop := 0; offsetLeft := 0; offsetWidth := 0; offsetHeight := 0;
     getBoundingClientRect := None |}.

(** A 50 x 50 element at (100, 100) of the page, laid out in the body. *)
Definition in_body : Element :=
  {| offsetTop := 100; offsetLeft := 100; offsetWidth := 50; offsetHeight := 50;
     getBoundingClientRect :=
       Some {| box_top := 100; box_left := 100; box_width := 50; box_height := 50 |} |}.

(** The same box on the page, but the element sits at the origin of a
    positioned container: its layout offsets are 0. *)
Definition in_container : Element :=
  {| offsetTop := 0; offsetLeft := 0; offsetWidth := 50; offsetHeight := 50;
     getBoundingClientRect :=
       Some {| box_top := 100; box_left := 100; box_width := 50; box_height := 50 |} |}.

(** The element of [in_body] after the page grew above it. *)
Definition pushed_down : Element :=
  {| offsetTop := 300; offsetLeft := 100; offsetWidth := 50; offsetHeight := 50;
     getBoundingClientRect :=
       Some {| box_top := 300; box_left := 100; box_width := 50; box_height := 50 |} |}.

(** An unscrolled document whose element 0 has the id [zone] and the
    layout [e]; other handles are objects without a box. *)
Definition page (e : Element) : Host :=
  {| docElem_scrollTop := 0; docElem_scrollLeft := 0;
     docElem_clientTop := 0; docElem_clientLeft := 0;
     docBody_scrollTop := 0; docBody_scrollLeft := 0;
     ids := {[ "zone" := 0%nat ]};
     element := fun k => match k with O => e | _ => no_element end;
     event_model := fun _ => W3C |}.

Definition empty_world : World :=
  {| heap := []; instances := []; host_calls := []; invoked := [] |}.

Definition sample_options (t : TargetRef) (o : value) : Options :=
  {| opt_target := Some t; opt_outline := o; opt_debug := false;
     opt_monitor := None; opt_onBreach := Some 1%nat; opt_onLeave := Some 2%nat |}.

Definition zeros : value := num_array [Fin 0; Fin 0; Fin 0; Fin 0].

Definition at_point (x y : Z) : MouseEvent := {| clientX := x; clientY := y |}.

(** The world after [new Perimeter({target: 'zone', outline: o, ..})] on
    the page whose element has the layout [e]. *)
Definition guarded (e : Element) (o : value) : World :=
  snd (new_Perimeter (page e) true (Some (sample_options (ById "zone") o)) empty_world).

Definition sample_box : Rect :=
  {| rect_width := 50; rect_height := 50; rect_top := 100; rect_left := 100 |}.

(** An instance around element 0 with the sample box and a zero outline,
    as the constructor leaves it. *)
Definition armed_perimeter : Perimeter :=
  {| options := sample_options (ById "zone") zeros; breaches := []; alarm := false;
     outline := zeros; target := Some 0%nat; boundary := None;
     rects := sample_box; monitor_event := None |}.

(** The same instance after the pointer entered at (125, 125). *)
Definition breached_world : World :=
  {| heap := [Built (with_alarm true
                       (with_breaches [(125, 125)]
                          (with_event (at_point 125 125) armed_perimeter)))];
     instances := [0%nat];
     host_calls := host_calls (guarded in_body zeros);
     invoked := [{| callee := 1%nat; via := "breach"; receiver := 0%nat;
                    argument := WithEvent (at_point 125 125) |}] |}.

(** ** One update as a function *)

Inductive Transition : Type :=
| Breaching
| Leaving.

(** The transition an update fires on the instance [p], if any. *)
Definition fires (h : Host) (p : Perimeter) (e : MouseEvent) : option Transition :=
  match target p, outline_nums (outline p) with
  | Some t, Some o =>
      let z := zone h t (rects p) o in
      if alarm p
      then if leave_test z (clientX e) (clientY e) then Some Leaving else None
      else if breach_test z (clientX e) (clientY e) then Some Breaching else None
  | _, _ => None
  end.

(** The instance after the update. *)
Definition after (h : Host) (p : Perimeter) (e : MouseEvent) : Perimeter :=
  match fires h p e with
  | Some Breaching =>
      with_alarm true
        (with_breaches (breaches p ++ [(clientX e, clientY e)]) (with_event e p))
  | Some Leaving => with_alarm false (with_event e p)
  | None => with_event e p
  end.

(** The callbacks the update invokes on the instance at [l]. *)
Definition announced (h : Host) (l : loc) (p : Perimeter) (e : MouseEvent)
  : list Invocation :=
  match fires h p e with
  | Some Breaching =>
      match opt_onBreach (options p) with
      | Some f => [{| callee := f; via := "breach"; receiver := l;
                      argument := WithEvent e |}]
      | None => []
      end
  | Some Leaving =>
      match opt_onLeave (options p) with
      | Some g => [{| callee := g; via := "leave"; receiver := l;
                      argument := WithString "undefined" |}]
      | None => []
      end
  | None => []
  end.

(** The state a list of callback keys ends in when it alternates, starting
    with [breach] from Armed and with [leave] from Breached; [None] when it
    does not alternate. *)
Fixpoint ends_in (breached : bool) (keys : list string) : option bool :=
  match keys with
  | [] => Some breached
  | k :: rest =>
      if String.eqb k (if breached then "leave" else "breach")
      then ends_in (negb breached) rest
      else None
  end.

Definition position (u : Host * MouseEvent) : Z * Z :=
  (clientX (snd u), clientY (snd u)).

Definition outlineOf (w : World) (l : loc) : option value :=
  match heap w !! l with
  | Some (Built p) => Some (outline p)
  | _ => None
  end.

(** What applying [formatOutline] to its own result does to one entry. *)
Definition settle (n : num) : num :=
  match n with
  | Fin z => Fin z
  | _ => Fin 0
  end.

Definition is_integer (n : num) : bool :=
  match n with Fin _ => true | _ => false end.

(** Within the integers doubles represent exactly. *)
Definition safe (z : Z) : bool := (- 2 ^ 53 <? z) && (z <? 2 ^ 53).

(** The four listeners [init] hands to a host of the W3C model. *)
Definition listeners (l : loc) (opts : Options) : list HostCall :=
  [AddEventListener (match opt_monitor opts with Some m => Node m | None => Document end)
     "mousemove" (Observe l);
   AddEventListener Window "resize" Recalculate;
   AddEventListener Document "DOMMouseScroll" (Observe l);
   AddEventListener Document "mousewheel" (Observe l)].

(** The same for a host of the Microsoft model. *)
Definition attachments (l : loc) (opts : Options) : list HostCall :=
  [AttachEvent (match opt_monitor opts with Some m => Node m | None => Document end)
     "onmousemove" (Observe l);
   AttachEvent Window "onresize" Recalculate;
   AttachEvent Document "onDOMMouseScroll" (Observe l);
   AttachEvent Document "onmousewheel" (Observe l)].

(** An entry the model prints and reads as JavaScript does. *)
Definition in_range (n : num) : bool :=
  match n with
  | Fin z => safe z
  | _ => true
  end.

(** How [init] binds on a host whose objects all follow the model [m]. *)
Definition bindings (m : EventModel) (l : loc) (opts : Options) : list HostCall :=
  match m with
  | W3C => listeners l opts
  | Microsoft => attachments l opts
  | NoEvents => []
  end.

(** The overlay [init] creates for the instance [p]: none without the
    [debug] option. *)
Definition overlay_of (opts : Options) (p : Perimeter) : option Boundary :=
  if opt_debug opts then
    match reflow p (outline p) with
    | Normal b => Some b
    | Abrupt _ => None
    end
  else None.

(** The element of [in_body] seen after the page was scrolled by 30 down
    and 20 to the right: its box moved in the viewport, its layout offsets
    did not. *)
Definition in_body_scrolled : Element :=
  {| offsetTop := 100; offsetLeft := 100; offsetWidth := 50; offsetHeight := 50;
     getBoundingClientRect :=
       Some {| box_top := 70; box_left := 80; box_width := 50; box_height := 50 |} |}.

(** The sample page with another event model and another scroll position. *)
Definition page_with (e : Element) (m : EventModel) (scrollTop scrollLeft : Z) : Host :=
  {| docElem_scrollTop := scrollTop; docElem_scrollLeft := scrollLeft;
     docElem_clientTop := 0; docElem_clientLeft := 0;
     docBody_scrollTop := 0; docBody_scrollLeft := 0;
     ids := {[ "zone" := 0%nat ]};
     element := fun k => match k with O => e | _ => no_element end;
     event_model := fun _ => m |}.

(** * Properties *)

(** ** Printing and reading integers *)

Section Decimal.

Lemma read_digits_acc d acc :
  read_digits (chars (NilEmpty.string_of_uint d)) (Z.pos acc)
  = Z.pos (Pos.of_uint_acc d acc).
Proof.
  revert acc. induction d; intros acc; cbn -[Z.mul Z.add Pos.mul Pos.add];
    try reflexivity; rewrite <- IHd; f_equal; unfold digit_val; cbn; lia.
Qed.

Lemma read_digits_uint d :
  read_digits (chars (NilEmpty.string_of_uint d)) 0 = Z.of_N (Pos.of_uint d).
Proof.
  induction d; cbn -[Z.mul Z.add Pos.mul Pos.add]; try reflexivity;
    try apply IHd; apply (read_digits_acc d).
Qed.

Lemma read_digits_pos p :
  read_digits (chars (NilEmpty.string_of_uint (Pos.to_uint p))) 0 = Z.pos p.
Proof. rewrite read_digits_uint, Unsigned.of_to. reflexivity. Qed.

Lemma uint_head_digit d :
  d <> Decimal.Nil ->
  exists c r, chars (NilEmpty.string_of_uint d) = c :: r /\ is_digit c = true
              /\ is_ws c = false /\ Ascii.eqb c "-" = false /\ Ascii.eqb c "+" = false.
Proof.
  destruct d; intros Hd; try congruence; cbn; eauto 10.
Qed.

Lemma parse_unsigned_pos p :
  parse_unsigned (chars (NilEmpty.string_of_uint (Pos.to_uint p))) = Some (Z.pos p).
Proof.
  destruct (uint_head_digit _ (Unsigned.to_uint_nonnil p)) as (c & r & E & Hc & _).
  unfold parse_unsigned. rewrite <- (read_digits_pos p), E, Hc. reflexivity.
Qed.

Lemma parseInt_Fin z : parseInt (VNum (Fin z)) = Fin z.
Proof.
  unfold parseInt, parseInt_string. cbn [ToString num_to_string].
  destruct z as [|p|p]; [reflexivity | |].
  - unfold Z_to_string. cbn [Z.to_int NilEmpty.string_of_int].
    pose proof (parse_unsigned_pos p) as Hp.
    destruct (uint_head_digit _ (Unsigned.to_uint_nonnil p))
      as (c & r & E & Hc & Hw & Hm & Hpl).
    rewrite E in Hp |- *. cbn [dropwhile]. rewrite Hw, Hm, Hpl, Hp. reflexivity.
  - unfold Z_to_string. cbn [Z.to_int NilEmpty.string_of_int chars list_ascii_of_string].
    change (dropwhile is_ws ("-"%char :: ?l)) with ("-"%char :: l).
    cbn [Ascii.eqb Bool.eqb]. fold (chars (NilEmpty.string_of_uint (Pos.to_uint p))).
    rewrite parse_unsigned_pos. reflexivity.
Qed.

End Decimal.

(** ** The coercions on sample inputs *)

Example formatOutline_number :
  formatOutline (VNum (Fin 10)) = Normal [Fin 10; Fin 10; Fin 10; Fin 10].
Proof. reflexivity. Qed.

Example formatOutline_numeric_string :
  formatOutline (VStr "25") = Normal [Fin 25; Fin 25; Fin 25; Fin 25].
Proof. reflexivity. Qed.

Example formatOutline_strings_and_holes :
  formatOutline (VArr [VStr " 42px"; VNum (Fin (-2)); VNull])
  = Normal [Fin 42; Fin (-2); Fin 0; Fin 0].
Proof. reflexivity. Qed.

Example formatOutline_single_entry :
  formatOutline (VArr [VNum (Fin 5)]) = Normal [Fin 5; Fin 5; Fin 5; Fin 5].
Proof. reflexivity. Qed.

Example formatOutline_infinite :
  formatOutline (VNum PInf) = Normal [NaN; NaN; NaN; NaN].
Proof. reflexivity. Qed.

Example formatOutline_undefined : formatOutline VUndef = Abrupt TypeError.
Proof. reflexivity. Qed.

Example numeric_strings :
  List.map is_numeric_string
    [""; "  12 "; "-3.5e+7"; ".5"; "5."; "0x1F"; "-Infinity";
     "."; "1e"; "+0x10"; "12px"; "1,2"]
  = [true; true; true; true; true; true; true;
     false; false; false; false; false].
Proof. reflexivity. Qed.

Example parseInt_samples :
  List.map parseInt_string ["  -12abc"; "+7"; "0x10"; ""; "abc"; "3.9"]
  = [Fin (-12); Fin 7; Fin 0; NaN; NaN; Fin 3].
Proof. reflexivity. Qed.

(** ** A string with a comma is no numeric literal *)

Section Comma.

Local Abbreviation comma := (","%char) (only parsing).

Lemma dropwhile_In p c l : In c l -> p c = false -> In c (dropwhile p l).
Proof.
  intros Hin Hp. induction l as [|a l IH]; [easy|].
  cbn. destruct (p a) eqn:Ha; [|exact Hin].
  destruct Hin as [-> | Hin]; [congruence | auto].
Qed.

Lemma trim_In c l : In c l -> is_ws c = false -> In c (trim l).
Proof.
  intros Hin Hw. unfold trim. apply in_rev. rewrite rev_involutive.
  apply dropwhile_In; [|exact Hw]. apply -> in_rev. now apply dropwhile_In.
Qed.

Lemma forallb_In_false p (c : ascii) l : In c l -> p c = false -> forallb p l = false.
Proof.
  intros Hin Hp. destruct (forallb p l) eqn:E; [|reflexivity].
  rewrite forallb_forall in E. rewrite (E _ Hin) in Hp. discriminate.
Qed.

Lemma chars_eqb_eq a b : chars_eqb a b = true -> a = b.
Proof.
  revert b. induction a as [|x a IH]; intros [|y b]; cbn; try easy.
  intros [Hxy Hab]%andb_prop. apply Ascii.eqb_eq in Hxy. f_equal; auto.
Qed.

Lemma decimal_digits_comma l : In comma l -> decimal_digits l = false.
Proof.
  intros Hin. unfold decimal_digits.
  rewrite (forallb_In_false is_digit comma l Hin eq_refl). apply andb_false_r.
Qed.

Lemma signed_integer_comma l : In comma l -> signed_integer l = false.
Proof.
  intros Hin. destruct l as [|c r]; [easy|]. unfold signed_integer.
  destruct (Ascii.eqb c "+" || Ascii.eqb c "-")%bool eqn:Hs.
  - destruct Hin as [-> | Hin]; [discriminate|]. now apply decimal_digits_comma.
  - now apply decimal_digits_comma.
Qed.

Lemma exponent_part_opt_comma l : In comma l -> exponent_part_opt l = false.
Proof.
  intros Hin. destruct l as [|c r]; [easy|]. unfold exponent_part_opt.
  destruct Hin as [-> | Hin]; [reflexivity|].
  rewrite (signed_integer_comma r Hin). apply andb_false_r.
Qed.

Lemma str_unsigned_decimal_comma l : In comma l -> str_unsigned_decimal l = false.
Proof.
  intros Hin. unfold str_unsigned_decimal.
  destruct (chars_eqb l (chars "Infinity")) eqn:E.
  { apply chars_eqb_eq in E. subst l. cbn in Hin.
    repeat (destruct Hin as [Hin | Hin]; [discriminate|]). destruct Hin. }
  pose proof (dropwhile_In is_digit comma l Hin eq_refl) as Hr.
  destruct (dropwhile is_digit l) as [|c r']; [destruct Hr|].
  destruct (Ascii.eqb c ".") eqn:Hc.
  - destruct Hr as [-> | Hr]; [discriminate|].
    rewrite (exponent_part_opt_comma _ (dropwhile_In is_digit comma r' Hr eq_refl)).
    apply andb_false_r.
  - rewrite (exponent_part_opt_comma _ Hr). apply andb_false_r.
Qed.

Lemma str_decimal_comma l : In comma l -> str_decimal l = false.
Proof.
  intros Hin. destruct l as [|c r]; [easy|]. unfold str_decimal.
  destruct (Ascii.eqb c "+" || Ascii.eqb c "-")%bool eqn:Hs.
  - destruct Hin as [-> | Hin]; [discriminate|]. now apply str_unsigned_decimal_comma.
  - now apply str_unsigned_decimal_comma.
Qed.

Lemma non_decimal_comma l : In comma l -> non_decimal l = false.
Proof.
  intros Hin. destruct l as [|z [|x ds]]; try easy. unfold non_decimal.
  destruct Hin as [-> | [-> | Hin]]; [reflexivity | |].
  - cbn. apply andb_false_r.
  - rewrite (forallb_In_false is_hex_digit comma ds Hin eq_refl),
            (forallb_In_false is_octal_digit comma ds Hin eq_refl),
            (forallb_In_false is_binary_digit comma ds Hin eq_refl).
    rewrite !andb_false_r. reflexivity.
Qed.

Lemma is_numeric_string_comma s : In comma (chars s) -> is_numeric_string s = false.
Proof.
  intros Hin. unfold is_numeric_string.
  pose proof (trim_In comma _ Hin eq_refl) as Ht.
  rewrite (str_decimal_comma _ Ht), (non_decimal_comma _ Ht).
  destruct (trim (chars s)); [destruct Ht | reflexivity].
Qed.

Lemma chars_append a b : chars (String.append a b) = (chars a ++ chars b)%list.
Proof.
  unfold chars. induction a as [|c a IH]; simpl; [reflexivity | now f_equal].
Qed.

Lemma join_comma a b rest : In comma (chars (join (a :: b :: rest))).
Proof.
  cbn [join]. rewrite chars_append. apply in_or_app. right.
  destruct rest; rewrite chars_append; apply in_or_app; left; cbn; auto.
Qed.

(** An array of two or more elements is not a number. *)
Lemma isNaN_array a b rest : isNaN (VArr (a :: b :: rest)) = true.
Proof.
  unfold isNaN. rewrite is_numeric_string_comma; [reflexivity|].
  cbn [ToString List.map]. apply join_comma.
Qed.

End Comma.

(** ** formatOutline *)

Section FormatOutline.

Lemma parseInt_string_cases s :
  parseInt_string s = NaN \/ exists z, parseInt_string s = Fin z.
Proof.
  unfold parseInt_string.
  destruct (dropwhile is_ws (chars s)) as [|c r]; [now left|].
  destruct (Ascii.eqb c "-"); [|destruct (Ascii.eqb c "+")];
    match goal with |- context [parse_unsigned ?l] => destruct (parse_unsigned l) end;
    eauto.
Qed.

Lemma parseInt_integer_or_NaN v : integer_or_NaN (parseInt v) = true.
Proof.
  unfold parseInt. destruct (parseInt_string_cases (ToString v)) as [-> | [z ->]];
    reflexivity.
Qed.

(** The scalar branch: the whole input is parsed four times. *)
Lemma formatOutline_scalar v :
  isNaN v = false ->
  formatOutline v = Normal [parseInt v; parseInt v; parseInt v; parseInt v].
Proof. intros H. unfold formatOutline. cbn. rewrite H. reflexivity. Qed.

Lemma formatOutline_entries v x0 x1 x2 x3 :
  isNaN v = true ->
  get_index v 0 = Normal x0 -> get_index v 1 = Normal x1 ->
  get_index v 2 = Normal x2 -> get_index v 3 = Normal x3 ->
  formatOutline v = Normal [entry x0; entry x1; entry x2; entry x3].
Proof.
  intros H H0 H1 H2 H3. unfold formatOutline. cbn.
  rewrite H, H0, H1, H2, H3. reflexivity.
Qed.

Lemma entry_integer_or_NaN x : integer_or_NaN (entry x) = true.
Proof. unfold entry. destruct (truthy x); cbn; auto using parseInt_integer_or_NaN. Qed.

Lemma entry_pixel x : pixel x = true -> entry x = match x with VNum n => n | _ => NaN end.
Proof.
  destruct x as [| | |[z| | |]| |]; try discriminate. intros _.
  unfold entry. cbn. destruct (Z.eqb_spec z 0) as [->|]; cbn; [reflexivity|].
  apply parseInt_Fin.
Qed.

Lemma get_index_accepted v i : accepted v = true -> exists x, get_index v i = Normal x.
Proof. destruct v; try discriminate; cbn; eauto. Qed.

Lemma get_index_truthy v i : truthy v = true -> exists x, get_index v i = Normal x.
Proof. destruct v; try discriminate; cbn; eauto. Qed.

Lemma formatOutline_total v :
  (forall i, exists x, get_index v i = Normal x) ->
  exists x0 x1 x2 x3,
    formatOutline v = Normal [x0; x1; x2; x3] /\
    forallb integer_or_NaN [x0; x1; x2; x3] = true.
Proof.
  intros Hget. destruct (isNaN v) eqn:E.
  - destruct (Hget 0%nat) as [y0 H0], (Hget 1%nat) as [y1 H1],
             (Hget 2%nat) as [y2 H2], (Hget 3%nat) as [y3 H3].
    exists (entry y0), (entry y1), (entry y2), (entry y3). split.
    + now apply formatOutline_entries.
    + cbn. now rewrite !entry_integer_or_NaN.
  - exists (parseInt v), (parseInt v), (parseInt v), (parseInt v). split.
    + now apply formatOutline_scalar.
    + cbn. now rewrite !parseInt_integer_or_NaN.
Qed.

Lemma valid_outline_inv o :
  valid_outline o = true ->
  exists a b c d, o = VArr [a; b; c; d] /\
    pixel a = true /\ pixel b = true /\ pixel c = true /\ pixel d = true.
Proof.
  destruct o as [| | | | |elems]; try discriminate. cbn.
  intros [Hlen Hall]%andb_prop. apply Nat.eqb_eq in Hlen.
  destruct elems as [|a [|b [|c [|d [|]]]]]; try discriminate.
  cbn in Hall. rewrite !andb_true_r in Hall.
  apply andb_prop in Hall as [Ha [Hb [Hc Hd]%andb_prop]%andb_prop].
  exists a, b, c, d. auto.
Qed.

End FormatOutline.

(** ** Outline coercion: the shape of the result *)

(** C5 (as stated, refuted): a sequence entry that is no number comes out
    as NaN, not as 0, so the result is not always four integers. *)
Lemma formatOutline_invalid_entry_is_NaN :
  accepted (VArr [VStr "abc"; VNum (Fin 0); VNum (Fin 0); VNum (Fin 0)]) = true /\
  formatOutline (VArr [VStr "abc"; VNum (Fin 0); VNum (Fin 0); VNum (Fin 0)])
    = Normal [NaN; Fin 0; Fin 0; Fin 0] /\
  ~ (forall v, accepted v = true ->
       exists a b c d : Z, formatOutline v = Normal [Fin a; Fin b; Fin c; Fin d]).
Proof.
  split; [reflexivity|]. split; [reflexivity|].
  intros H.
  destruct (H (VArr [VStr "abc"; VNum (Fin 0); VNum (Fin 0); VNum (Fin 0)]) eq_refl)
    as (a & b & c & d & E).
  vm_compute in E. discriminate.
Qed.

(** C5 (amended): for every number or sequence, formatOutline returns
    exactly four values, each an integer or NaN (and, digit strings beyond
    the range of doubles aside, never an infinity); in a sequence of two or
    more entries every missing or falsy entry becomes 0.  (An entry
    parseInt cannot read becomes NaN.) *)
Theorem formatOutline_four_integers_or_NaN (v : value) :
  accepted v = true ->
  exists x0 x1 x2 x3,
    formatOutline v = Normal [x0; x1; x2; x3] /\
    forallb integer_or_NaN [x0; x1; x2; x3] = true /\
    (forall a b rest i,
        v = VArr (a :: b :: rest) -> (i < 4)%nat ->
        truthy (nth i (a :: b :: rest) VUndef) = false ->
        nth i [x0; x1; x2; x3] NaN = Fin 0).
Proof.
  intros Hv.
  destruct (formatOutline_total v (fun i => get_index_accepted v i Hv))
    as (x0 & x1 & x2 & x3 & E & Hall).
  exists x0, x1, x2, x3. split; [exact E|]. split; [exact Hall|].
  intros a b rest i -> Hi Hfalsy.
  rewrite (formatOutline_entries _ _ _ _ _ (isNaN_array a b rest)
             eq_refl eq_refl eq_refl eq_refl) in E.
  injection E as <- <- <- <-.
  destruct i as [|[|[|[|i]]]]; try lia; cbn [nth] in *; unfold entry;
    cbn [get_index nth] in *; now rewrite Hfalsy.
Qed.

(** C5, on a sequence with a unit suffix, a hole, an empty string and a letter. *)
Lemma formatOutline_four_integers_or_NaN_witness :
  exists x0 x1 x2 x3,
    formatOutline (VArr [VStr "12px"; VUndef; VStr ""; VStr "x"])
      = Normal [x0; x1; x2; x3] /\
    forallb integer_or_NaN [x0; x1; x2; x3] = true /\
    (forall a b rest i,
        VArr [VStr "12px"; VUndef; VStr ""; VStr "x"] = VArr (a :: b :: rest) ->
        (i < 4)%nat ->
        truthy (nth i (a :: b :: rest) VUndef) = false ->
        nth i [x0; x1; x2; x3] NaN = Fin 0).
Proof.
  apply (formatOutline_four_integers_or_NaN
           (VArr [VStr "12px"; VUndef; VStr ""; VStr "x"])).
  reflexivity.
Defined.

(** C8: on a valid 4-element outline formatOutline is idempotent; it even
    returns the outline itself. *)
Theorem formatOutline_idempotent (o : value) :
  valid_outline o = true ->
  exists o',
    formatOutline o = Normal o' /\
    formatOutline (num_array o') = Normal o' /\
    num_array o' = o.
Proof.
  intros (a & b & c & d & -> & Ha & Hb & Hc & Hd)%valid_outline_inv.
  assert (E : formatOutline (VArr [a; b; c; d])
              = Normal [entry a; entry b; entry c; entry d]).
  { apply formatOutline_entries; auto using isNaN_array. }
  rewrite (entry_pixel a Ha), (entry_pixel b Hb),
          (entry_pixel c Hc), (entry_pixel d Hd) in E.
  destruct a as [| | |na| |]; try discriminate.
  destruct b as [| | |nb| |]; try discriminate.
  destruct c as [| | |nc| |]; try discriminate.
  destruct d as [| | |nd| |]; try discriminate.
  exists [na; nb; nc; nd]. split; [exact E|]. split; [exact E | reflexivity].
Qed.

(** C8, on the outline [10, 0, 30, 4]. *)
Lemma formatOutline_idempotent_witness :
  exists o',
    formatOutline (VArr [VNum (Fin 10); VNum (Fin 0); VNum (Fin 30); VNum (Fin 4)])
      = Normal o' /\
    formatOutline (num_array o') = Normal o' /\
    num_array o' = VArr [VNum (Fin 10); VNum (Fin 0); VNum (Fin 30); VNum (Fin 4)].
Proof.
  apply (formatOutline_idempotent
           (VArr [VNum (Fin 10); VNum (Fin 0); VNum (Fin 30); VNum (Fin 4)])).
  reflexivity.
Defined.

(** ** The geometry resolver *)

Lemma formatOutline_truthy v :
  truthy v = true -> exists o, formatOutline v = Normal o.
Proof.
  intros Hv.
  destruct (formatOutline_total v (fun i => get_index_truthy v i Hv))
    as (x0 & x1 & x2 & x3 & E & _).
  eauto.
Qed.

Lemma unusable_false opts :
  unusable (Some opts) = false -> truthy (opt_outline opts) = true.
Proof.
  unfold unusable. intros [_ H]%orb_false_elim. now apply negb_false_iff in H.
Qed.

(** The constructor up to the point where the rectangle is resolved. *)
Lemma new_Perimeter_resolves h with_new opts w e :
  unusable (Some opts) = false ->
  getClientRect h (resolve_target h (opt_target opts)) = Abrupt e ->
  new_Perimeter h with_new (Some opts) w
  = (Throw e, with_heap (heap w ++ [Bare]) w).
Proof.
  intros Hu Hr. destruct (formatOutline_truthy _ (unusable_false _ Hu)) as [o Ho].
  unfold new_Perimeter. rewrite Hu. unfold bind, alloc, lift.
  rewrite Ho. unfold ret. rewrite Hr. reflexivity.
Qed.

(** C9: without getBoundingClientRect on the element, getClientRect throws
    its error instead of returning; the constructor, which calls it, ends
    with that error too. *)
Theorem getClientRect_unsupported (h : Host) (e : handle) :
  getBoundingClientRect (element h e) = None ->
  getClientRect h (Some e) = Abrupt (Error unsupported) /\
  (forall with_new opts w,
      unusable (Some opts) = false ->
      resolve_target h (opt_target opts) = Some e ->
      fst (new_Perimeter h with_new (Some opts) w) = Throw (Error unsupported)).
Proof.
  intros Hbox.
  assert (E : getClientRect h (Some e) = Abrupt (Error unsupported)).
  { unfold getClientRect. now rewrite Hbox. }
  split; [exact E|]. intros with_new opts w Hu Ht.
  rewrite (new_Perimeter_resolves h with_new opts w (Error unsupported) Hu);
    [reflexivity | now rewrite Ht].
Qed.

(** C9, on an object of the sample page that has no box. *)
Lemma getClientRect_unsupported_witness :
  getClientRect (page in_body) (Some 7%nat) = Abrupt (Error unsupported) /\
  (forall with_new opts w,
      unusable (Some opts) = false ->
      resolve_target (page in_body) (opt_target opts) = Some 7%nat ->
      fst (new_Perimeter (page in_body) with_new (Some opts) w)
      = Throw (Error unsupported)).
Proof.
  apply (getClientRect_unsupported (page in_body) 7%nat). reflexivity.
Defined.

(** ** The two tests of detect *)

Ltac compare_all :=
  repeat match goal with
         | |- context [Z.ltb ?a ?b] => destruct (Z.ltb_spec a b)
         | H : context [Z.ltb ?a ?b] |- _ => destruct (Z.ltb_spec a b)
         end.

(** The zone of a target under an outline of four integers. *)
Lemma zone_integers h t rs a b c d :
  zone h t rs [Fin a; Fin b; Fin c; Fin d]
  = let mt := offsetTop (element h t) - fst (getScrollPos h) - a in
    let ml := offsetLeft (element h t) - snd (getScrollPos h) - d in
    {| maxTop := Fin mt;
       maxLeft := Fin ml;
       bottom := Fin (mt + rect_height rs + (a + c));
       right := Fin (ml + rect_width rs + (b + d)) |}.
Proof.
  unfold zone. cbn [side nth num_sub num_add num_neg].
  rewrite !parseInt_Fin. cbn [num_add].
  rewrite !Z.add_opp_r. reflexivity.
Qed.

(** C2 (as stated, refuted): on the lower edge of the zone neither test
    holds.  The zone is that of the 50 x 50 element at (100, 100) with a
    zero outline; the pointer is at (125, 150). *)
Lemma breach_leave_gap_on_edge :
  let z := zone (page in_body) 0%nat
             {| rect_width := 50; rect_height := 50; rect_top := 100; rect_left := 100 |}
             [Fin 0; Fin 0; Fin 0; Fin 0] in
  maxTop z = Fin 100 /\ bottom z = Fin 150 /\
  maxLeft z = Fin 100 /\ right z = Fin 150 /\
  breach_test z 125 150 = false /\ leave_test z 125 150 = false.
Proof. vm_compute. repeat split. Qed.

(** C2 (amended): with an outline of integers, the positions at which
    neither the breach test nor the leave test holds are exactly those of
    the closed rectangle that lie on its lower or right edge; everywhere
    else one of the two holds. *)
Theorem breach_leave_gap (h : Host) (t : handle) (rs : Rect) (a b c d x y : Z) :
  let z := zone h t rs [Fin a; Fin b; Fin c; Fin d] in
  let mt := offsetTop (element h t) - fst (getScrollPos h) - a in
  let ml := offsetLeft (element h t) - snd (getScrollPos h) - d in
  let lower := mt + rect_height rs + (a + c) in
  let rightmost := ml + rect_width rs + (b + d) in
  (breach_test z x y = false /\ leave_test z x y = false)
  <-> (mt <= y <= lower /\ ml <= x <= rightmost /\ (y = lower \/ x = rightmost)).
Proof.
  cbv zeta. rewrite zone_integers. cbv zeta.
  unfold breach_test, leave_test, num_ge, num_gt, num_lt.
  cbn [maxTop maxLeft bottom right].
  split.
  - intros [Hb Hl]. compare_all; cbn in Hb, Hl; try discriminate; lia.
  - intros (Hy & Hx & Hedge). compare_all; cbn; try lia; auto.
Qed.

(** ** recalculate leaves the rest of an instance alone *)

Arguments formatOutline : simpl never.
Arguments getClientRect : simpl never.
Arguments reflow : simpl never.
Arguments zone : simpl never.

Lemma keeps_refl w : keeps w w.
Proof. unfold keeps. auto. Qed.

Lemma keeps_trans w1 w2 w3 : keeps w1 w2 -> keeps w2 w3 -> keeps w1 w3.
Proof.
  intros (A1 & B1 & C1 & D1) (A2 & B2 & C2 & D2). unfold keeps.
  split; [congruence|]. split; [congruence|]. split; [congruence|].
  intros l. now rewrite D2.
Qed.

Lemma lookup_write l o w :
  (l < length (heap w))%nat -> heap (snd (write l o w)) !! l = Some o.
Proof. intros Hl. cbn. now apply list_lookup_insert_eq. Qed.

Lemma lookup_write_ne l l' o w :
  l <> l' -> heap (snd (write l o w)) !! l' = heap w !! l'.
Proof. intros Hl. cbn. now apply list_lookup_insert_ne. Qed.

Lemma write_keeps l o o' w :
  heap w !! l = Some o -> beside_geometry o' = beside_geometry o ->
  keeps w (snd (write l o' w)).
Proof.
  intros Hl Ho. unfold keeps. repeat split; try reflexivity.
  intros l'. destruct (decide (l = l')) as [<- | Hne].
  - rewrite lookup_write by (eapply lookup_lt_Some; eauto).
    rewrite Hl. cbn. now rewrite Ho.
  - now rewrite lookup_write_ne.
Qed.

Lemma reflow_boundary_keeps l p b0 w :
  heap w !! l = Some (Built p) -> boundary p = Some b0 ->
  keeps w (snd (reflow_boundary l p w)).
Proof.
  intros Hl Hb. unfold reflow_boundary, bind, lift.
  destruct (reflow p VUndef) as [b | e]; cbn -[write]; [|apply keeps_refl].
  eapply write_keeps; [exact Hl|]. cbn. now rewrite Hb.
Qed.

Lemma refresh_rects_keeps h l w : keeps w (snd (refresh_rects h l w)).
Proof.
  unfold refresh_rects, bind, read.
  destruct (heap w !! l) as [[|p]|] eqn:Hl; cbn -[write]; try apply keeps_refl.
  unfold lift. destruct (getClientRect h (target p)) as [r | e];
    cbn -[write reflow_boundary]; [|apply keeps_refl].
  assert (K : keeps w (snd (write l (Built (with_rects r p)) w))).
  { eapply write_keeps; eauto. }
  destruct (opt_debug (options p)); [destruct (boundary p) as [b0|] eqn:Hb|];
    try exact K.
  eapply keeps_trans; [exact K|].
  eapply (reflow_boundary_keeps l (with_rects r p) b0); [|exact Hb].
  apply lookup_write. eapply lookup_lt_Some; eauto.
Qed.

Lemma broadcast_keeps h todo w : keeps w (snd (broadcast h todo w)).
Proof.
  revert w. induction todo as [|l rest IH]; intros w; [apply keeps_refl|].
  cbn [broadcast]. unfold bind.
  pose proof (refresh_rects_keeps h l w) as K.
  destruct (refresh_rects h l w) as [[[]|e|] w1]; cbn [snd] in K |- *; auto.
  eapply keeps_trans; [exact K | apply IH].
Qed.

Lemma recalculate_keeps h this w : keeps w (snd (recalculate h this w)).
Proof.
  destruct this as [l|]; cbn [recalculate].
  - unfold bind, read.
    destruct (heap w !! l) as [[|p]|] eqn:Hl; cbn -[write]; try apply keeps_refl.
    unfold lift. destruct (formatOutline (outline p)) as [o | e];
      cbn -[write reflow_boundary]; [|apply keeps_refl].
    assert (K : keeps w (snd (write l (Built (with_outline (num_array o) p)) w))).
    { eapply write_keeps; eauto. }
    destruct (opt_debug (options p)); [destruct (boundary p) as [b0|] eqn:Hb|];
      try exact K.
    eapply keeps_trans; [exact K|].
    eapply (reflow_boundary_keeps l (with_outline (num_array o) p) b0); [|exact Hb].
    apply lookup_write. eapply lookup_lt_Some; eauto.
  - unfold bind, registry. apply broadcast_keeps.
Qed.

(** C4: whatever the world and whichever way recalculate is called (on an
    instance, or by the host as the broadcast over the registry), and
    whether it returns or throws, the alarm state and the breach log of
    every instance are as before; so are its options, its target, its
    monitor and whether it has an overlay, the registry, the listeners and
    the callbacks invoked.  Only the cached rectangle, the outline and the
    style of the overlay can differ. *)
Theorem recalculate_frame (h : Host) (this : option loc) (w : World) (l : loc) :
  let w' := snd (recalculate h this w) in
  alarmState w' l = alarmState w l /\
  breachLog w' l = breachLog w l /\
  beside_geometry <$> heap w' !! l = beside_geometry <$> heap w !! l /\
  instances w' = instances w /\
  host_calls w' = host_calls w /\
  invoked w' = invoked w.
Proof.
  cbv zeta. destruct (recalculate_keeps h this w) as (Hi & Hc & Hv & Hg).
  specialize (Hg l). unfold alarmState, breachLog.
  destruct (heap (snd (recalculate h this w)) !! l) as [[|p']|],
           (heap w !! l) as [[|p]|]; cbn in Hg; try discriminate;
    repeat split; auto; injection Hg; congruence.
Qed.

(** ** What recalculate refreshes *)

Lemma reflow_array p o arg :
  truthy arg = false -> outline p = num_array o -> exists b, reflow p arg = Normal b.
Proof.
  intros Ha Ho. unfold reflow. rewrite Ha, Ho.
  destruct (formatOutline_truthy (num_array o) eq_refl) as [o' ->]. eauto.
Qed.

(** One round of the broadcast loop, seen from its own instance. *)
Lemma refresh_rects_at h l w p :
  heap w !! l = Some (Built p) ->
  exists p',
    heap (snd (refresh_rects h l w)) = <[l := Built p']> (heap w) /\
    target p' = target p /\ outline p' = outline p /\
    (rects p' = rects p \/ getClientRect h (target p) = Normal (rects p')) /\
    (fst (refresh_rects h l w) = Ret tt ->
     getClientRect h (target p) = Normal (rects p')).
Proof.
  intros Hl. unfold refresh_rects, bind, read. rewrite Hl. unfold lift.
  destruct (getClientRect h (target p)) as [r | e]; cbn.
  2:{ exists p. rewrite list_insert_id by exact Hl. repeat split; auto; discriminate. }
  set (p1 := with_rects r p).
  destruct (opt_debug (options p)); [destruct (boundary p)|]; cbn;
    try (exists p1; repeat split; auto; fail).
  unfold reflow_boundary, bind, lift.
  destruct (reflow p1 VUndef) as [b' | e]; cbn.
  - exists (with_boundary (Some b') p1). rewrite list_insert_insert_eq.
    repeat split; auto.
  - exists p1. repeat split; auto; discriminate.
Qed.

Lemma refresh_rects_elsewhere h l l' w :
  l <> l' -> heap (snd (refresh_rects h l w)) !! l' = heap w !! l'.
Proof.
  intros Hne. destruct (heap w !! l) as [[|p]|] eqn:Hl.
  - unfold refresh_rects, bind, read. now rewrite Hl.
  - destruct (refresh_rects_at h l w p Hl) as (p' & -> & _).
    now apply list_lookup_insert_ne.
  - unfold refresh_rects, bind, read. now rewrite Hl.
Qed.

(** A rectangle that is up to date stays so through the loop. *)
Lemma broadcast_stable h todo w l p :
  heap w !! l = Some (Built p) ->
  getClientRect h (target p) = Normal (rects p) ->
  exists p',
    heap (snd (broadcast h todo w)) !! l = Some (Built p') /\
    rects p' = rects p /\ target p' = target p /\ outline p' = outline p.
Proof.
  revert w p. induction todo as [|a rest IH]; intros w p Hl Hr; [cbn; eauto|].
  assert (H1 : exists p1, heap (snd (refresh_rects h a w)) !! l = Some (Built p1) /\
                 rects p1 = rects p /\ target p1 = target p /\ outline p1 = outline p).
  { destruct (decide (a = l)) as [-> | Hne].
    - destruct (refresh_rects_at h l w p Hl) as (p1 & E & Ht & Ho & Hrs & _).
      exists p1. rewrite E, list_lookup_insert_eq by (eapply lookup_lt_Some; eauto).
      repeat split; auto. destruct Hrs as [|Hrs]; congruence.
    - exists p. now rewrite refresh_rects_elsewhere. }
  destruct H1 as (p1 & Hl1 & Hr1 & Ht1 & Ho1).
  cbn [broadcast]. unfold bind.
  destruct (refresh_rects h a w) as [[[]|e|] w1]; cbn [snd] in *; eauto.
  destruct (IH w1 p1 Hl1) as (p' & Hl' & Hr' & Ht' & Ho'); [congruence|].
  exists p'. repeat split; congruence.
Qed.

Lemma broadcast_refreshes h todo w l p :
  In l todo ->
  heap w !! l = Some (Built p) ->
  fst (broadcast h todo w) = Ret tt ->
  exists p',
    heap (snd (broadcast h todo w)) !! l = Some (Built p') /\
    getClientRect h (target p) = Normal (rects p') /\ outline p' = outline p.
Proof.
  revert w p. induction todo as [|a rest IH]; intros w p Hin Hl Hret; [destruct Hin|].
  cbn [broadcast] in *. unfold bind in *.
  destruct (decide (a = l)) as [-> | Hne].
  - destruct (refresh_rects_at h l w p Hl) as (p1 & E & Ht & Ho & _ & Hrs).
    destruct (refresh_rects h l w) as [[[]|e|] w1]; cbn [fst snd] in *;
      try discriminate.
    specialize (Hrs eq_refl).
    assert (Hl1 : heap w1 !! l = Some (Built p1)).
    { rewrite E. apply list_lookup_insert_eq. eapply lookup_lt_Some; eauto. }
    destruct (broadcast_stable h rest w1 l p1 Hl1) as (p' & Hl' & Hr' & Ht' & Ho');
      [congruence|].
    exists p'. repeat split; congruence.
  - destruct Hin as [Heq | Hin]; [congruence|].
    pose proof (refresh_rects_elsewhere h a l w Hne) as Hl1.
    destruct (refresh_rects h a w) as [[[]|e|] w1]; cbn [fst snd] in *;
      try discriminate.
    apply IH; auto. congruence.
Qed.

(** The instance branch of recalculate. *)
Lemma recalculate_on_instance h l w p o :
  heap w !! l = Some (Built p) ->
  formatOutline (outline p) = Normal o ->
  fst (recalculate h (Some l) w) = Ret tt /\
  exists p',
    heap (snd (recalculate h (Some l) w)) !! l = Some (Built p') /\
    outline p' = num_array o /\ rects p' = rects p.
Proof.
  intros Hl Ho. pose proof (lookup_lt_Some _ _ _ Hl) as Hlt.
  cbn [recalculate]. unfold bind, read. rewrite Hl. unfold lift. rewrite Ho.
  cbn.
  set (p1 := with_outline (num_array o) p).
  destruct (opt_debug (options p)); [destruct (boundary p)|]; cbn;
    try (split; [reflexivity | exists p1; split; [now apply list_lookup_insert_eq | auto]]).
  unfold reflow_boundary, bind, lift.
  destruct (reflow_array p1 o VUndef eq_refl eq_refl) as [b' ->].
  cbn. split; [reflexivity|].
  exists (with_boundary (Some b') p1). split; [|auto].
  apply list_lookup_insert_eq. now rewrite length_insert.
Qed.

(** C3 (as stated, refuted): after the page has grown above the target,
    recalculate() on the instance leaves the cached rectangle where it
    was, although the resolver now answers otherwise. *)
Lemma recalculate_instance_keeps_stale_rectangle :
  let w := guarded in_body (VNum (Fin 10)) in
  let w' := snd (recalculate (page pushed_down) (Some 0%nat) w) in
  rectangle w 0%nat = Some sample_box /\
  fst (recalculate (page pushed_down) (Some 0%nat) w) = Ret tt /\
  rectangle w' 0%nat = Some sample_box /\
  getClientRect (page pushed_down) (Some 0%nat)
  = Normal {| rect_width := 50; rect_height := 50; rect_top := 300; rect_left := 100 |}.
Proof. vm_compute. repeat split. Qed.

(** C3 (amended): recalculate() on an instance re-normalizes its outline
    with formatOutline, whatever was stored there in between, and leaves
    the cached rectangle as it was; the rectangle is re-resolved with
    getClientRect by the broadcast (recalculate called by the host on
    resize) for every registered instance, and that leaves the outline as
    it was. *)
Theorem recalculate_refreshes (h : Host) (w : World) (l : loc) (p : Perimeter)
    (o : list num) :
  heap w !! l = Some (Built p) ->
  formatOutline (outline p) = Normal o ->
  (fst (recalculate h (Some l) w) = Ret tt /\
   exists p', heap (snd (recalculate h (Some l) w)) !! l = Some (Built p') /\
              outline p' = num_array o /\ rects p' = rects p) /\
  (In l (instances w) -> fst (recalculate h None w) = Ret tt ->
   exists p', heap (snd (recalculate h None w)) !! l = Some (Built p') /\
              getClientRect h (target p) = Normal (rects p') /\
              outline p' = outline p).
Proof.
  intros Hl Ho. split; [now apply recalculate_on_instance|].
  intros Hin. cbn [recalculate]. unfold bind, registry. intros Hret.
  apply broadcast_refreshes; auto. now apply -> in_rev.
Qed.

(** C3, on an instance whose outline was overwritten from outside and whose target has moved since. *)
Lemma recalculate_refreshes_witness :
  let h := page pushed_down in
  let w := with_heap
             [Built {| options := sample_options (ById "zone") (VNum (Fin 10));
                       breaches := []; alarm := false;
                       outline := VArr [VStr "20"; VNum NaN; VNum (Fin 3)];
                       target := Some 0%nat; boundary := None;
                       rects := sample_box; monitor_event := None |}]
             (guarded in_body (VNum (Fin 10))) in
  (fst (recalculate h (Some 0%nat) w) = Ret tt /\
   exists p', heap (snd (recalculate h (Some 0%nat) w)) !! 0%nat = Some (Built p') /\
              outline p' = num_array [Fin 20; Fin 0; Fin 3; Fin 0] /\
              rects p' = sample_box) /\
  (exists p', heap (snd (recalculate h None w)) !! 0%nat = Some (Built p') /\
              getClientRect h (Some 0%nat) = Normal (rects p') /\
              outline p' = VArr [VStr "20"; VNum NaN; VNum (Fin 3)]).
Proof.
  cbv zeta.
  destruct (recalculate_refreshes (page pushed_down)
              (with_heap
                 [Built {| options := sample_options (ById "zone") (VNum (Fin 10));
                           breaches := []; alarm := false;
                           outline := VArr [VStr "20"; VNum NaN; VNum (Fin 3)];
                           target := Some 0%nat; boundary := None;
                           rects := sample_box; monitor_event := None |}]
                 (guarded in_body (VNum (Fin 10))))
              0%nat _ [Fin 20; Fin 0; Fin 3; Fin 0] eq_refl eq_refl) as [Hi Hb].
  split; [exact Hi|]. apply Hb; [vm_compute; auto | vm_compute; reflexivity].
Defined.

(** ** The monitor *)

Lemma num_ge_not_lt a b : num_ge a b = true -> num_lt a b = false.
Proof. destruct a, b; cbn; try discriminate; auto using negb_true_iff.
       all: intros H; now apply negb_true_iff in H. Qed.

Lemma num_lt_asym a b : num_lt a b = true -> num_lt b a = false.
Proof. destruct a, b; cbn; try discriminate; auto. intros H. lia. Qed.

(** Inside the breach region the leave test fails. *)
Lemma breach_excludes_leave z x y :
  breach_test z x y = true -> leave_test z x y = false.
Proof.
  unfold breach_test, leave_test, num_gt.
  intros [[[H1 H2]%andb_prop H3]%andb_prop H4]%andb_prop.
  now rewrite (num_ge_not_lt _ _ H1), (num_lt_asym _ _ H2),
              (num_ge_not_lt _ _ H3), (num_lt_asym _ _ H4).
Qed.

(** An update while Breached: only the leave test is evaluated. *)
Lemma observe_breached h l e w p :
  heap w !! l = Some (Built p) -> alarm p = true ->
  let w' := snd (observe h l e w) in
  breach_calls w' = breach_calls w /\
  exists p',
    heap w' !! l = Some (Built p') /\
    breaches p' = breaches p /\ target p' = target p /\
    outline p' = outline p /\ rects p' = rects p /\
    (in_breach_region h p e = true -> alarm p' = true /\ invoked w' = invoked w).
Proof.
  intros Hl Ha. pose proof (lookup_lt_Some _ _ _ Hl) as Hlt.
  assert (Hin : forall x, (<[l := x]> (heap w)) !! l = Some x)
    by (intros x; now apply list_lookup_insert_eq).
  cbv zeta. unfold observe, bind, read. rewrite Hl, Ha. cbn.
  unfold detect, bind, read. cbn. rewrite Hin. cbn.
  unfold in_breach_region.
  destruct (target p) as [t|] eqn:Ht; cbn;
    [|split; [reflexivity | exists (with_event e p); repeat split; auto; easy]].
  destruct (outline_nums (outline p)) as [o|] eqn:Ho; cbn;
    [|split; [reflexivity | exists (with_event e p); repeat split; auto; easy]].
  destruct (leave_test (zone h t (rects p) o) (clientX e) (clientY e)) eqn:Hleave.
  - unfold trigger, bind. cbn.
    destruct (opt_onLeave (options p)) as [f|]; cbn.
    + split; [unfold breach_calls; cbn; rewrite List.filter_app; cbn; apply app_nil_r|].
      eexists. split; [apply list_lookup_insert_eq; now rewrite length_insert|].
      repeat split; auto;
        match goal with
        | Hb : breach_test _ _ _ = true |- _ =>
            apply breach_excludes_leave in Hb; congruence
        end.
    + split; [reflexivity|].
      eexists. split; [apply list_lookup_insert_eq; now rewrite length_insert|].
      repeat split; auto;
        match goal with
        | Hb : breach_test _ _ _ = true |- _ =>
            apply breach_excludes_leave in Hb; congruence
        end.
  - cbn. split; [reflexivity|]. exists (with_event e p). repeat split; auto.
Qed.

(** An update while Armed: only the breach test is evaluated. *)
Lemma observe_armed h l e w p t o :
  heap w !! l = Some (Built p) -> alarm p = false ->
  target p = Some t -> outline_nums (outline p) = Some o ->
  let w' := snd (observe h l e w) in
  if breach_test (zone h t (rects p) o) (clientX e) (clientY e) then
    alarmState w' l = Some true /\
    breachLog w' l = Some (breaches p ++ [(clientX e, clientY e)])%list /\
    invoked w' = (invoked w ++
                  match opt_onBreach (options p) with
                  | Some f => [{| callee := f; via := "breach"; receiver := l;
                                  argument := WithEvent e |}]
                  | None => []
                  end)%list
  else
    alarmState w' l = Some false /\ breachLog w' l = Some (breaches p) /\
    invoked w' = invoked w.
Proof.
  intros Hl Ha Ht Ho. pose proof (lookup_lt_Some _ _ _ Hl) as Hlt.
  assert (Hin : forall x, (<[l := x]> (heap w)) !! l = Some x)
    by (intros x; now apply list_lookup_insert_eq).
  cbv zeta. unfold observe, bind, read. rewrite Hl, Ha. cbn.
  unfold detect, bind, read. cbn. rewrite Hin. cbn. rewrite Ht, Ho. cbn.
  destruct (breach_test (zone h t (rects p) o) (clientX e) (clientY e)).
  - unfold trigger, bind, alarmState, breachLog. cbn.
    destruct (opt_onBreach (options p)) as [f|]; cbn;
      rewrite list_lookup_insert_eq by (now rewrite !length_insert);
      rewrite ?app_nil_r; auto.
  - unfold alarmState, breachLog. cbn. rewrite Hin. cbn. now rewrite Ha.
Qed.

Lemma observe_absent h l e w :
  (forall p, heap w !! l <> Some (Built p)) -> snd (observe h l e w) = w.
Proof.
  intros Hl. unfold observe, bind, read.
  destruct (heap w !! l) as [[|p]|]; try reflexivity. now destruct (Hl p).
Qed.

(** While Armed, an update that cannot be tested changes neither the log
    nor the callbacks invoked. *)
Lemma observe_armed_untested h l e w p :
  heap w !! l = Some (Built p) -> alarm p = false ->
  target p = None \/ outline_nums (outline p) = None ->
  let w' := snd (observe h l e w) in
  breachLog w' l = Some (breaches p) /\ invoked w' = invoked w.
Proof.
  intros Hl Ha Hno. pose proof (lookup_lt_Some _ _ _ Hl) as Hlt.
  assert (Hin : forall x, (<[l := x]> (heap w)) !! l = Some x)
    by (intros x; now apply list_lookup_insert_eq).
  cbv zeta. unfold observe, bind, read. rewrite Hl, Ha. cbn.
  unfold detect, bind, read, breachLog. cbn. rewrite Hin. cbn.
  destruct (target p) as [t|] eqn:Ht; cbn; [|now rewrite Hin].
  destruct Hno as [|Ho]; [discriminate|]. rewrite Ho. cbn. now rewrite Hin.
Qed.

Lemma run_breached l updates :
  forall w p,
    heap w !! l = Some (Built p) -> alarm p = true ->
    Forall (fun u => in_breach_region (fst u) p (snd u) = true) updates ->
    alarmState (run l updates w) l = Some true /\
    breachLog (run l updates w) l = Some (breaches p) /\
    invoked (run l updates w) = invoked w.
Proof.
  induction updates as [|[h e] rest IH]; intros w p Hl Ha Hall.
  - cbn. unfold alarmState, breachLog. rewrite Hl, Ha. auto.
  - inversion Hall as [|u us Hu Hrest]; subst. cbn [run fst snd] in *.
    destruct (observe_breached h l e w p Hl Ha)
      as (_ & p' & Hl' & Hb & Ht & Ho & Hr & Hstay).
    destruct (Hstay Hu) as [Ha' Hinv].
    destruct (IH _ p' Hl' Ha') as (R1 & R2 & R3).
    { eapply Forall_impl; [exact Hrest|]. intros [h' e'] Hin. cbn [fst snd] in *.
      unfold in_breach_region in *. now rewrite Ht, Ho, Hr. }
    repeat split; congruence.
Qed.

(** C7: while the state is Breached, pointer updates that stay within the
    breach region leave it Breached and invoke no callback and append
    nothing to the log, however long the sequence; in fact no update
    received while Breached invokes onBreach or appends to the log, and an
    update that does either found the state Armed and left it Breached. *)
Theorem no_breach_while_breached (l : loc) (w : World) (p : Perimeter)
    (updates : list (Host * MouseEvent)) :
  heap w !! l = Some (Built p) -> alarm p = true ->
  Forall (fun u => in_breach_region (fst u) p (snd u) = true) updates ->
  (alarmState (run l updates w) l = Some true /\
   breachLog (run l updates w) l = Some (breaches p) /\
   invoked (run l updates w) = invoked w) /\
  (forall h e,
      breach_calls (snd (observe h l e w)) = breach_calls w /\
      breachLog (snd (observe h l e w)) l = breachLog w l) /\
  (forall h e v,
      breach_calls (snd (observe h l e v)) <> breach_calls v \/
      breachLog (snd (observe h l e v)) l <> breachLog v l ->
      alarmState v l = Some false /\ alarmState (snd (observe h l e v)) l = Some true).
Proof.
  intros Hl Ha Hall. split; [now apply run_breached|]. split.
  - intros h e. destruct (observe_breached h l e w p Hl Ha)
      as (Hc & p' & Hl' & Hb & _).
    split; [exact Hc|]. unfold breachLog. now rewrite Hl', Hl, Hb.
  - clear. intros h e v Hfired.
    destruct (heap v !! l) as [[|q]|] eqn:Hq.
    + rewrite observe_absent in Hfired by (intros q; congruence).
      destruct Hfired as [H|H]; now destruct H.
    + destruct (alarm q) eqn:Hq_alarm.
      * destruct (observe_breached h l e v q Hq Hq_alarm)
          as (Hc & q' & Hq' & Hb & _).
        destruct Hfired as [H|H]; [now destruct H|].
        unfold breachLog in H. rewrite Hq', Hq, Hb in H. now destruct H.
      * assert (Hv : alarmState v l = Some false)
          by (unfold alarmState; now rewrite Hq, Hq_alarm).
        split; [exact Hv|].
        destruct (target q) as [t|] eqn:Ht;
          [destruct (outline_nums (outline q)) as [o|] eqn:Ho|].
        -- pose proof (observe_armed h l e v q t o Hq Hq_alarm Ht Ho) as Hobs.
           cbv zeta in Hobs.
           destruct (breach_test (zone h t (rects q) o) (clientX e) (clientY e));
             [tauto|].
           destruct Hobs as (_ & Hlog & Hinv). exfalso.
           destruct Hfired as [H|H]; apply H.
           ++ unfold breach_calls. now rewrite Hinv.
           ++ unfold breachLog at 2. now rewrite Hlog, Hq.
        -- destruct (observe_armed_untested h l e v q Hq Hq_alarm (or_intror Ho))
             as [Hlog Hinv].
           exfalso. destruct Hfired as [H|H]; apply H.
           ++ unfold breach_calls. now rewrite Hinv.
           ++ unfold breachLog at 2. now rewrite Hlog, Hq.
        -- destruct (observe_armed_untested h l e v q Hq Hq_alarm (or_introl Ht))
             as [Hlog Hinv].
           exfalso. destruct Hfired as [H|H]; apply H.
           ++ unfold breach_calls. now rewrite Hinv.
           ++ unfold breachLog at 2. now rewrite Hlog, Hq.
    + rewrite observe_absent in Hfired by (intros q; congruence).
      destruct Hfired as [H|H]; now destruct H.
Qed.

(** C7, on the sample instance after a breach, with two more updates inside the zone. *)
Lemma no_breach_while_breached_witness :
  let updates := [(page in_body, at_point 130 140); (page in_body, at_point 149 100)] in
  breached_world = snd (observe (page in_body) 0%nat (at_point 125 125)
                          (guarded in_body zeros)) /\
  (alarmState (run 0%nat updates breached_world) 0%nat = Some true /\
   breachLog (run 0%nat updates breached_world) 0%nat = Some [(125, 125)] /\
   invoked (run 0%nat updates breached_world) = invoked breached_world) /\
  (forall h e,
      breach_calls (snd (observe h 0%nat e breached_world)) = breach_calls breached_world /\
      breachLog (snd (observe h 0%nat e breached_world)) 0%nat
      = breachLog breached_world 0%nat) /\
  (forall h e v,
      breach_calls (snd (observe h 0%nat e v)) <> breach_calls v \/
      breachLog (snd (observe h 0%nat e v)) 0%nat <> breachLog v 0%nat ->
      alarmState v 0%nat = Some false /\
      alarmState (snd (observe h 0%nat e v)) 0%nat = Some true).
Proof.
  cbv zeta. split; [vm_compute; reflexivity|].
  apply (no_breach_while_breached 0%nat breached_world
           (with_alarm true
              (with_breaches [(125, 125)]
                 (with_event (at_point 125 125) armed_perimeter)))
           [(page in_body, at_point 130 140); (page in_body, at_point 149 100)]).
  - reflexivity.
  - reflexivity.
  - repeat constructor.
Defined.

(** C6 (as stated, refuted): the target's resolved box is
    {top:100, left:100, width:50, height:50}, the outline [0,0,0,0], the
    page unscrolled and the state Armed, yet the update at (125, 125)
    fires nothing: the element sits in a positioned container, its layout
    offsets are 0, and detect measures from those. *)
Lemma no_breach_inside_resolved_box :
  let h := page in_container in
  let w := guarded in_container zeros in
  let w' := snd (observe h 0%nat (at_point 125 125) w) in
  heap w = [Built armed_perimeter] /\
  getClientRect h (Some 0%nat) = Normal sample_box /\
  getScrollPos h = (0, 0) /\
  alarmState w' 0%nat = Some false /\
  breachLog w' 0%nat = Some [] /\
  invoked w' = [].
Proof. vm_compute. repeat split. Qed.

(** C6 (amended): for a target whose layout offsets are offsetTop = 100
    and offsetLeft = 100 and whose cached rectangle is 50 wide and 50
    high, with outline [0,0,0,0] and zero scroll offset, an update at
    (125, 125) while Armed appends the position to the breach log, invokes
    onBreach (when one was supplied) with the event and makes the state
    Breached; an update at (200, 200) while Armed fires nothing and leaves
    the state Armed. *)
Theorem breach_in_sample_zone (h : Host) (w : World) (l : loc) (p : Perimeter)
    (t : handle) :
  heap w !! l = Some (Built p) -> alarm p = false ->
  target p = Some t -> outline p = zeros ->
  rect_width (rects p) = 50 -> rect_height (rects p) = 50 ->
  offsetTop (element h t) = 100 -> offsetLeft (element h t) = 100 ->
  getScrollPos h = (0, 0) ->
  let inside := snd (observe h l (at_point 125 125) w) in
  let outside := snd (observe h l (at_point 200 200) w) in
  (alarmState inside l = Some true /\
   breachLog inside l = Some (breaches p ++ [(125, 125)])%list /\
   invoked inside
   = (invoked w ++
      match opt_onBreach (options p) with
      | Some f => [{| callee := f; via := "breach"; receiver := l;
                      argument := WithEvent (at_point 125 125) |}]
      | None => []
      end)%list) /\
  (alarmState outside l = Some false /\
   breachLog outside l = Some (breaches p) /\
   invoked outside = invoked w).
Proof.
  intros Hl Ha Ht Ho Hw Hh Htop Hleft Hscroll. cbv zeta.
  assert (Hnums : outline_nums (outline p) = Some [Fin 0; Fin 0; Fin 0; Fin 0])
    by now rewrite Ho.
  assert (Hz : zone h t (rects p) [Fin 0; Fin 0; Fin 0; Fin 0]
               = {| maxTop := Fin 100; maxLeft := Fin 100;
                    bottom := Fin 150; right := Fin 150 |}).
  { rewrite zone_integers. cbv zeta. now rewrite Hw, Hh, Htop, Hleft, Hscroll. }
  split.
  - pose proof (observe_armed h l (at_point 125 125) w p t _ Hl Ha Ht Hnums) as H.
    cbv zeta in H. rewrite Hz in H. exact H.
  - pose proof (observe_armed h l (at_point 200 200) w p t _ Hl Ha Ht Hnums) as H.
    cbv zeta in H. rewrite Hz in H. exact H.
Qed.

(** C6, on the instance built around the element laid out in the body. *)
Lemma breach_in_sample_zone_witness :
  let w := guarded in_body zeros in
  let inside := snd (observe (page in_body) 0%nat (at_point 125 125) w) in
  let outside := snd (observe (page in_body) 0%nat (at_point 200 200) w) in
  (alarmState inside 0%nat = Some true /\
   breachLog inside 0%nat = Some [(125, 125)] /\
   invoked inside
   = [{| callee := 1%nat; via := "breach"; receiver := 0%nat;
         argument := WithEvent (at_point 125 125) |}]) /\
  (alarmState outside 0%nat = Some false /\
   breachLog outside 0%nat = Some [] /\
   invoked outside = []).
Proof.
  apply (breach_in_sample_zone (page in_body) (guarded in_body zeros) 0%nat
           armed_perimeter 0%nat); reflexivity.
Defined.

(** ** The constructor *)

(** The guard of init: without a target it registers and binds nothing. *)
Lemma init_skips_without_target h l opts w p :
  heap w !! l = Some (Built p) -> target p = None ->
  init h l opts w = (Ret tt, w).
Proof.
  intros Hl Ht. unfold init, bind, read. now rewrite Hl, Ht.
Qed.

(** C1 (the code at the failing input): when the target id names no
    element the constructor does not complete; getClientRect is called on
    null before init and its guard are reached, and the TypeError leaves
    the constructor.  The registry and the listeners stay as they were. *)
Theorem new_Perimeter_unresolved_target_throws (h : Host) (with_new : bool)
    (opts : Options) (id : string) (w : World) :
  opt_target opts = Some (ById id) -> id <> "" -> ids h !! id = None ->
  truthy (opt_outline opts) = true ->
  fst (new_Perimeter h with_new (Some opts) w) = Throw TypeError /\
  instances (snd (new_Perimeter h with_new (Some opts) w)) = instances w /\
  host_calls (snd (new_Perimeter h with_new (Some opts) w)) = host_calls w.
Proof.
  intros Ht Hid Hnone Ho.
  rewrite (new_Perimeter_resolves h with_new opts w TypeError).
  - auto.
  - unfold unusable. rewrite Ht, Ho.
    apply String.eqb_neq in Hid. now rewrite Hid.
  - rewrite Ht. cbn. now rewrite Hnone.
Qed.

(** C1, with an id the sample page does not have. *)
Lemma new_Perimeter_unresolved_target_throws_witness :
  let opts := sample_options (ById "nowhere") (VNum (Fin 10)) in
  fst (new_Perimeter (page in_body) true (Some opts) empty_world) = Throw TypeError /\
  instances (snd (new_Perimeter (page in_body) true (Some opts) empty_world)) = [] /\
  host_calls (snd (new_Perimeter (page in_body) true (Some opts) empty_world)) = [].
Proof.
  apply (new_Perimeter_unresolved_target_throws (page in_body) true
           (sample_options (ById "nowhere") (VNum (Fin 10))) "nowhere" empty_world).
  - reflexivity.
  - discriminate.
  - reflexivity.
  - reflexivity.
Defined.

(** C10: with the scalar outline 0 the constructor returns at its first
    test, whatever the target: [new] hands back an object without fields
    (a plain call hands back undefined), nothing is added to the registry,
    no listener is bound and no callback is invoked. *)
Theorem new_Perimeter_zero_outline (h : Host) (with_new : bool) (opts : Options)
    (w : World) :
  opt_outline opts = VNum (Fin 0) ->
  let r := fst (new_Perimeter h with_new (Some opts) w) in
  let w' := snd (new_Perimeter h with_new (Some opts) w) in
  instances w' = instances w /\ host_calls w' = host_calls w /\
  invoked w' = invoked w /\
  (forall l p, heap w' !! l = Some (Built p) -> heap w !! l = Some (Built p)) /\
  if with_new
  then r = Ret (Some (length (heap w))) /\ heap w' = (heap w ++ [Bare])%list /\
       heap w' !! length (heap w) = Some Bare
  else r = Ret None /\ heap w' = heap w.
Proof.
  intros Ho. cbv zeta. unfold new_Perimeter.
  assert (Hu : unusable (Some opts) = true).
  { unfold unusable. rewrite Ho. apply orb_true_r. }
  rewrite Hu. destruct with_new; cbn.
  - repeat split; auto.
    + intros l p Hl. destruct (decide (l < length (heap w))%nat) as [Hlt|Hge].
      * now rewrite lookup_app_l in Hl.
      * rewrite lookup_app_r in Hl by lia.
        destruct (l - length (heap w))%nat as [|[|k]]; discriminate.
    + now apply list_lookup_middle.
  - repeat split; auto.
Qed.

(** C10, with a target that resolves and has a box. *)
Lemma new_Perimeter_zero_outline_witness :
  let opts := sample_options (ById "zone") (VNum (Fin 0)) in
  let r := fst (new_Perimeter (page in_body) true (Some opts) empty_world) in
  let w' := snd (new_Perimeter (page in_body) true (Some opts) empty_world) in
  getClientRect (page in_body) (resolve_target (page in_body) (opt_target opts))
  = Normal sample_box /\
  instances w' = [] /\ host_calls w' = [] /\ invoked w' = [] /\
  (forall l p, heap w' !! l = Some (Built p) -> heap empty_world !! l = Some (Built p)) /\
  r = Ret (Some 0%nat) /\ heap w' = [Bare] /\ heap w' !! 0%nat = Some Bare.
Proof.
  cbv zeta. split; [reflexivity|].
  apply (new_Perimeter_zero_outline (page in_body) true
           (sample_options (ById "zone") (VNum (Fin 0))) empty_world).
  reflexivity.
Defined.

(** * Further properties of the code *)

(** ** One update, as a function of the instance *)

Lemma after_geometry h p e :
  options (after h p e) = options p /\ target (after h p e) = target p /\
  outline (after h p e) = outline p /\ rects (after h p e) = rects p /\
  boundary (after h p e) = boundary p /\ monitor_event (after h p e) = Some e.
Proof. unfold after. destruct (fires h p e) as [[|]|]; repeat split. Qed.

(** [observe] on a built instance is the function [after], with the
    callbacks [announced]. *)
Lemma observe_Built h l e w p :
  heap w !! l = Some (Built p) ->
  snd (observe h l e w)
  = {| heap := <[l := Built (after h p e)]> (heap w);
       instances := instances w;
       host_calls := host_calls w;
       invoked := (invoked w ++ announced h l p e)%list |}.
Proof.
  intros Hl. pose proof (lookup_lt_Some _ _ _ Hl) as Hlt.
  assert (Hin : forall x, (<[l := x]> (heap w)) !! l = Some x)
    by (intros x; now apply list_lookup_insert_eq).
  unfold observe, bind, read. rewrite Hl. cbn.
  unfold detect, bind, read. cbn. rewrite Hin. cbn.
  unfold after, announced, fires.
  destruct (target p) as [t|] eqn:Ht; cbn;
    [|now rewrite app_nil_r].
  destruct (outline_nums (outline p)) as [o|] eqn:Ho; cbn;
    [|now rewrite app_nil_r].
  destruct (alarm p) eqn:Ha; cbn.
  - destruct (leave_test _ _ _); cbn; [|now rewrite app_nil_r].
    unfold trigger. cbn.
    destruct (opt_onLeave (options p)); cbn;
      rewrite ?list_insert_insert_eq, ?app_nil_r; reflexivity.
  - destruct (breach_test _ _ _); cbn; [|now rewrite app_nil_r].
    unfold trigger, bind. cbn.
    destruct (opt_onBreach (options p)); cbn;
      rewrite ?list_insert_insert_eq, ?app_nil_r; reflexivity.
Qed.

Lemma observe_Built_lookup h l e w p :
  heap w !! l = Some (Built p) ->
  heap (snd (observe h l e w)) !! l = Some (Built (after h p e)).
Proof.
  intros Hl. rewrite (observe_Built h l e w p Hl). cbn.
  apply list_lookup_insert_eq. eapply lookup_lt_Some; eauto.
Qed.

Lemma leave_excludes_breach z x y :
  leave_test z x y = true -> breach_test z x y = false.
Proof.
  intros Hl. destruct (breach_test z x y) eqn:Hb; [|reflexivity].
  apply breach_excludes_leave in Hb. congruence.
Qed.

Lemma fires_inv h p e tr :
  fires h p e = Some tr ->
  alarm p = match tr with Breaching => false | Leaving => true end.
Proof.
  unfold fires. destruct (target p); [|discriminate].
  destruct (outline_nums (outline p)); [|discriminate].
  destruct (alarm p);
    match goal with |- context [if ?c then _ else _] => destruct c end;
    intros [= <-]; reflexivity.
Qed.

(** Right after an update, the same update fires nothing. *)
Lemma fires_after h p e : fires h (after h p e) e = None.
Proof.
  unfold after. destruct (fires h p e) as [[|]|] eqn:Hf.
  - pose proof (fires_inv _ _ _ _ Hf) as Ha. unfold fires in *. cbn.
    destruct (target p); [|reflexivity].
    destruct (outline_nums (outline p)); [|reflexivity].
    rewrite Ha in Hf.
    destruct (breach_test _ _ _) eqn:Hb; [|discriminate].
    now rewrite (breach_excludes_leave _ _ _ Hb).
  - pose proof (fires_inv _ _ _ _ Hf) as Ha. unfold fires in *. cbn.
    destruct (target p); [|reflexivity].
    destruct (outline_nums (outline p)); [|reflexivity].
    rewrite Ha in Hf.
    destruct (leave_test _ _ _) eqn:Hl; [|discriminate].
    now rewrite (leave_excludes_breach _ _ _ Hl).
  - exact Hf.
Qed.

(** X1: an update delivered twice (the listeners for mousemove and for
    the two wheel events all run observe) acts once: after an update, the
    same update under the same layout changes nothing at all. *)
Theorem observe_repeated (h : Host) (l : loc) (e : MouseEvent) (w : World) :
  snd (observe h l e (snd (observe h l e w))) = snd (observe h l e w).
Proof.
  destruct (heap w !! l) as [[|p]|] eqn:Hl.
  - rewrite !(observe_absent h l e w) by (intros q; congruence). reflexivity.
  - rewrite (observe_Built h l e _ _ (observe_Built_lookup h l e w p Hl)).
    rewrite (observe_Built h l e w p Hl). cbn [heap instances host_calls invoked].
    rewrite list_insert_insert_eq.
    assert (Hp : after h (after h p e) e = after h p e).
    { unfold after at 1. rewrite fires_after.
      unfold after. destruct (fires h p e) as [[|]|]; reflexivity. }
    assert (Ha : announced h l (after h p e) e = []).
    { unfold announced. now rewrite fires_after. }
    now rewrite Hp, Ha, app_nil_r.
  - rewrite !(observe_absent h l e w) by (intros q; congruence). reflexivity.
Qed.

(** X2: observe touches one instance only, and of that one neither the
    geometry nor the options: the registry, the listeners, every other
    object, and the cached rectangle and outline of every instance are as
    before. *)
Theorem observe_frame (h : Host) (l : loc) (e : MouseEvent) (w : World) (l' : loc) :
  let w' := snd (observe h l e w) in
  instances w' = instances w /\
  host_calls w' = host_calls w /\
  rectangle w' l' = rectangle w l' /\
  outlineOf w' l' = outlineOf w l' /\
  (l' <> l -> heap w' !! l' = heap w !! l').
Proof.
  cbv zeta. destruct (heap w !! l) as [[|p]|] eqn:Hl;
    try (rewrite observe_absent by (intros q; congruence); auto).
  rewrite (observe_Built h l e w p Hl). cbn. unfold rectangle, outlineOf. cbn.
  destruct (after_geometry h p e) as (_ & _ & Ho & Hr & _).
  destruct (decide (l = l')) as [<- | Hne].
  - rewrite list_lookup_insert_eq by (eapply lookup_lt_Some; eauto).
    rewrite Hl, Ho, Hr. repeat split; auto. congruence.
  - rewrite list_lookup_insert_ne by exact Hne. repeat split; auto.
Qed.

(** X3: from Breached, an update outside the zone makes the state Armed
    again and leaves the breach log alone; onLeave, when supplied, is
    invoked once, and what it receives is the string "undefined", not the
    event. *)
Theorem observe_leaving (h : Host) (l : loc) (e : MouseEvent) (w : World)
    (p : Perimeter) (t : handle) (o : list num) :
  heap w !! l = Some (Built p) -> alarm p = true ->
  target p = Some t -> outline_nums (outline p) = Some o ->
  leave_test (zone h t (rects p) o) (clientX e) (clientY e) = true ->
  let w' := snd (observe h l e w) in
  alarmState w' l = Some false /\
  breachLog w' l = Some (breaches p) /\
  invoked w'
  = (invoked w ++
     match opt_onLeave (options p) with
     | Some g => [{| callee := g; via := "leave"; receiver := l;
                     argument := WithString "undefined" |}]
     | None => []
     end)%list.
Proof.
  intros Hl Ha Ht Ho Hleave. cbv zeta.
  unfold alarmState, breachLog. rewrite (observe_Built_lookup h l e w p Hl).
  rewrite (observe_Built h l e w p Hl). cbn.
  unfold after, announced, fires. rewrite Ht, Ho, Ha, Hleave. auto.
Qed.

(** X3, on the sample instance after its breach: the pointer moves to
    (200, 200). *)
Lemma observe_leaving_witness :
  let w' := snd (observe (page in_body) 0%nat (at_point 200 200) breached_world) in
  alarmState w' 0%nat = Some false /\
  breachLog w' 0%nat = Some [(125, 125)] /\
  invoked w'
  = (invoked breached_world ++
     [{| callee := 2%nat; via := "leave"; receiver := 0%nat;
         argument := WithString "undefined" |}])%list.
Proof.
  apply (observe_leaving (page in_body) 0%nat (at_point 200 200) breached_world
           (with_alarm true
              (with_breaches [(125, 125)]
                 (with_event (at_point 125 125) armed_perimeter)))
           0%nat [Fin 0; Fin 0; Fin 0; Fin 0]); reflexivity.
Defined.

(** ** Sequences of updates *)

Lemma ends_in_step h l p e f g rest :
  opt_onBreach (options p) = Some f -> opt_onLeave (options p) = Some g ->
  ends_in (alarm p) (List.map via (announced h l p e ++ rest))
  = ends_in (alarm (after h p e)) (List.map via rest).
Proof.
  intros Hf Hg. unfold announced, after.
  destruct (fires h p e) as [[|]|] eqn:E; [| |reflexivity];
    rewrite (fires_inv _ _ _ _ E), ?Hf, ?Hg; reflexivity.
Qed.

Lemma announced_owner h l p e f g :
  opt_onBreach (options p) = Some f -> opt_onLeave (options p) = Some g ->
  Forall (fun i => receiver i = l /\ (callee i = f \/ callee i = g))
         (announced h l p e).
Proof.
  intros Hf Hg. unfold announced. rewrite Hf, Hg.
  destruct (fires h p e) as [[|]|]; [| |constructor];
    (constructor; [cbn; auto | constructor]).
Qed.

(** X4: over any sequence of updates, under any layouts, the callbacks of
    an instance that has both are invoked in alternation: onBreach first
    when it starts Armed, onLeave first when it starts Breached, and the
    state at the end is the one the last callback announced. *)
Theorem callbacks_alternate (l : loc) (updates : list (Host * MouseEvent))
    (w : World) (p : Perimeter) (f g : callback) :
  heap w !! l = Some (Built p) ->
  opt_onBreach (options p) = Some f -> opt_onLeave (options p) = Some g ->
  exists added,
    invoked (run l updates w) = (invoked w ++ added)%list /\
    alarmState (run l updates w) l = ends_in (alarm p) (List.map via added) /\
    Forall (fun i => receiver i = l /\ (callee i = f \/ callee i = g)) added.
Proof.
  revert w p. induction updates as [|[h e] rest IH]; intros w p Hl Hf Hg.
  - exists []. cbn. unfold alarmState. rewrite Hl, app_nil_r. auto.
  - cbn [run fst snd].
    destruct (after_geometry h p e) as (Hopt & _).
    destruct (IH _ (after h p e) (observe_Built_lookup h l e w p Hl))
      as (added & Hinv & Hst & Hown); [now rewrite Hopt .. |].
    exists (announced h l p e ++ added)%list. split; [|split].
    + rewrite Hinv, (observe_Built h l e w p Hl). cbn. now rewrite app_assoc.
    + rewrite Hst. symmetry. eapply ends_in_step; eauto.
    + apply Forall_app. split; [eapply announced_owner; eauto | exact Hown].
Qed.

(** X4, on the sample instance: in, out, still out, in again. *)
Lemma callbacks_alternate_witness :
  let updates := [(page in_body, at_point 125 125); (page in_body, at_point 10 10);
                  (page in_body, at_point 20 20); (page in_body, at_point 149 149)] in
  let w := guarded in_body zeros in
  exists added,
    invoked (run 0%nat updates w) = (invoked w ++ added)%list /\
    alarmState (run 0%nat updates w) 0%nat = ends_in false (List.map via added) /\
    Forall (fun i => receiver i = 0%nat /\ (callee i = 1%nat \/ callee i = 2%nat)) added.
Proof.
  apply (callbacks_alternate 0%nat
           [(page in_body, at_point 125 125); (page in_body, at_point 10 10);
            (page in_body, at_point 20 20); (page in_body, at_point 149 149)]
           (guarded in_body zeros) armed_perimeter 1%nat 2%nat); reflexivity.
Defined.

(** X5: the breach log is append-only, and what a sequence of updates
    appends is a subsequence of the positions delivered, in their order. *)
Theorem breach_log_grows (l : loc) (updates : list (Host * MouseEvent))
    (w : World) (p : Perimeter) :
  heap w !! l = Some (Built p) ->
  exists added,
    breachLog (run l updates w) l = Some (breaches p ++ added)%list /\
    sublist added (List.map position updates).
Proof.
  revert w p. induction updates as [|[h e] rest IH]; intros w p Hl.
  - exists []. cbn. unfold breachLog. rewrite Hl, app_nil_r. split; constructor.
  - cbn [run fst snd List.map].
    destruct (IH _ (after h p e) (observe_Built_lookup h l e w p Hl))
      as (added & Hlog & Hsub).
    unfold after in Hlog. unfold position at 1. cbn [snd].
    destruct (fires h p e) as [[|]|]; cbn in Hlog.
    + exists ((clientX e, clientY e) :: added). split.
      * rewrite Hlog. now rewrite <- app_assoc.
      * now apply sublist_skip.
    + exists added. split; [exact Hlog | now apply sublist_cons].
    + exists added. split; [exact Hlog | now apply sublist_cons].
Qed.

(** X5, on the sample instance. *)
Lemma breach_log_grows_witness :
  let updates := [(page in_body, at_point 125 125); (page in_body, at_point 10 10);
                  (page in_body, at_point 149 149)] in
  exists added,
    breachLog (run 0%nat updates (guarded in_body zeros)) 0%nat = Some ([] ++ added)%list /\
    sublist added (List.map position updates).
Proof.
  apply (breach_log_grows 0%nat
           [(page in_body, at_point 125 125); (page in_body, at_point 10 10);
            (page in_body, at_point 149 149)]
           (guarded in_body zeros) armed_perimeter).
  reflexivity.
Defined.

Lemma num_add_NaN_r a : num_add a NaN = NaN.
Proof. now destruct a. Qed.

Lemma parseInt_NaN : parseInt (VNum NaN) = NaN.
Proof. reflexivity. Qed.

(** With NaN on any of its four sides the breach test fails everywhere. *)
Lemma breach_test_NaN_side h t rs o i x y :
  (i < 4)%nat -> side o i = NaN -> breach_test (zone h t rs o) x y = false.
Proof.
  intros Hi Hs. unfold breach_test.
  destruct i as [|[|[|[|i]]]]; try lia.
  - assert (E : maxTop (zone h t rs o) = NaN).
    { unfold zone. cbn [maxTop]. rewrite Hs. reflexivity. }
    rewrite E. reflexivity.
  - assert (E : right (zone h t rs o) = NaN).
    { unfold zone. cbn [right]. rewrite Hs. cbn [num_add]. apply num_add_NaN_r. }
    rewrite E. cbn [num_lt]. apply andb_false_r.
  - assert (E : bottom (zone h t rs o) = NaN).
    { unfold zone. cbn [bottom]. rewrite Hs. now rewrite !num_add_NaN_r. }
    rewrite E. cbn [num_lt]. now rewrite andb_false_r.
  - assert (E : maxLeft (zone h t rs o) = NaN).
    { unfold zone. cbn [maxLeft]. rewrite Hs. reflexivity. }
    rewrite E. cbn [num_ge]. now rewrite andb_false_r.
Qed.

Lemma fires_NaN_side h p e o i :
  alarm p = false -> outline_nums (outline p) = Some o ->
  (i < 4)%nat -> side o i = NaN -> fires h p e = None.
Proof.
  intros Ha Ho Hi Hs. unfold fires. rewrite Ho, Ha.
  destruct (target p) as [t|]; [|reflexivity].
  now rewrite (breach_test_NaN_side h t (rects p) o i _ _ Hi Hs).
Qed.

(** X6: an Armed instance with NaN on one side of its outline (what
    formatOutline leaves for an entry it cannot read) is never breached:
    whatever the updates and the layouts, the state stays Armed, nothing
    is logged and no callback is invoked. *)
Theorem NaN_side_never_breached (l : loc) (updates : list (Host * MouseEvent))
    (w : World) (p : Perimeter) (o : list num) (i : nat) :
  heap w !! l = Some (Built p) -> alarm p = false ->
  outline_nums (outline p) = Some o -> (i < 4)%nat -> side o i = NaN ->
  alarmState (run l updates w) l = Some false /\
  breachLog (run l updates w) l = Some (breaches p) /\
  invoked (run l updates w) = invoked w.
Proof.
  revert w p. induction updates as [|[h e] rest IH]; intros w p Hl Ha Ho Hi Hs.
  - cbn. unfold alarmState, breachLog. rewrite Hl, Ha. auto.
  - cbn [run fst snd].
    pose proof (fires_NaN_side h p e o i Ha Ho Hi Hs) as Hf.
    assert (Hp : after h p e = with_event e p) by (unfold after; now rewrite Hf).
    pose proof (observe_Built_lookup h l e w p Hl) as Hl'. rewrite Hp in Hl'.
    destruct (IH _ _ Hl' Ha Ho Hi Hs) as (R1 & R2 & R3).
    split; [exact R1|]. split; [exact R2|].
    rewrite R3, (observe_Built h l e w p Hl). cbn.
    unfold announced. rewrite Hf. apply app_nil_r.
Qed.

(** X6, on the instance built with the outline ["abc", 0, 0, 0]: updates
    inside the box of the target fire nothing. *)
Lemma NaN_side_never_breached_witness :
  let w := guarded in_body (VArr [VStr "abc"; VNum (Fin 0); VNum (Fin 0); VNum (Fin 0)]) in
  let updates := [(page in_body, at_point 125 125); (page in_body, at_point 101 149)] in
  outlineOf w 0%nat = Some (num_array [NaN; Fin 0; Fin 0; Fin 0]) /\
  alarmState (run 0%nat updates w) 0%nat = Some false /\
  breachLog (run 0%nat updates w) 0%nat = Some [] /\
  invoked (run 0%nat updates w) = invoked w.
Proof.
  cbv zeta. split; [reflexivity|].
  apply (NaN_side_never_breached 0%nat
           [(page in_body, at_point 125 125); (page in_body, at_point 101 149)]
           (guarded in_body (VArr [VStr "abc"; VNum (Fin 0); VNum (Fin 0); VNum (Fin 0)]))
           (with_outline (num_array [NaN; Fin 0; Fin 0; Fin 0])
              {| options := sample_options (ById "zone")
                              (VArr [VStr "abc"; VNum (Fin 0); VNum (Fin 0); VNum (Fin 0)]);
                 breaches := []; alarm := false; outline := VUndef;
                 target := Some 0%nat; boundary := None; rects := sample_box;
                 monitor_event := None |})
           [NaN; Fin 0; Fin 0; Fin 0] 0%nat); try reflexivity. lia.
Defined.

(** ** More on formatOutline *)


Lemma is_digit_facts c :
  is_digit c = true ->
  is_ws c = false /\ Ascii.eqb c "+" = false /\ Ascii.eqb c "-" = false /\
  Ascii.eqb c "I" = false.
Proof.
  destruct c as [[] [] [] [] [] [] [] []]; cbn; intros H; try discriminate;
    repeat split.
Qed.

Lemma uint_all_digits d :
  forallb is_digit (chars (NilEmpty.string_of_uint d)) = true.
Proof. induction d; cbn; auto. Qed.

Lemma dropwhile_all p l : forallb p l = true -> dropwhile p l = [].
Proof.
  induction l as [|c r IH]; cbn; [reflexivity|].
  intros [Hc Hr]%andb_prop. rewrite Hc. auto.
Qed.

Lemma takewhile_all p l : forallb p l = true -> takewhile p l = l.
Proof.
  induction l as [|c r IH]; cbn; [reflexivity|].
  intros [Hc Hr]%andb_prop. rewrite Hc. f_equal. auto.
Qed.

Lemma dropwhile_ws_digit c r : is_digit c = true -> dropwhile is_ws (c :: r) = c :: r.
Proof. intros Hc. cbn. now destruct (is_digit_facts c Hc) as [-> _]. Qed.

Lemma forallb_rev_digits l :
  forallb is_digit l = true -> forallb is_digit (List.rev l) = true.
Proof.
  rewrite !forallb_forall. intros H c Hc. apply H. now apply in_rev.
Qed.

(** Digits with an optional minus sign in front have no blank to trim. *)
Lemma trim_signed_digits (sign : list ascii) ds :
  sign = [] \/ sign = ["-"%char] ->
  ds <> [] -> forallb is_digit ds = true ->
  trim (sign ++ ds) = (sign ++ ds)%list.
Proof.
  intros Hsign Hne Hds. unfold trim.
  assert (H1 : dropwhile is_ws (sign ++ ds) = (sign ++ ds)%list).
  { destruct Hsign as [-> | ->]; [|reflexivity].
    destruct ds as [|c r]; [easy|]. cbn in Hds. apply andb_prop in Hds as [Hc _].
    now apply dropwhile_ws_digit. }
  rewrite H1, rev_app_distr.
  pose proof (forallb_rev_digits ds Hds) as Hrev.
  destruct (List.rev ds) as [|c r] eqn:E.
  { apply (f_equal (@List.rev ascii)) in E. rewrite rev_involutive in E. now subst. }
  cbn in Hrev. apply andb_prop in Hrev as [Hc _].
  change ((c :: r) ++ List.rev sign)%list with (c :: (r ++ List.rev sign))%list.
  rewrite (dropwhile_ws_digit c _ Hc).
  change (c :: (r ++ List.rev sign))%list with ((c :: r) ++ List.rev sign)%list.
  rewrite <- E, <- rev_app_distr. apply rev_involutive.
Qed.

Lemma str_unsigned_decimal_digits ds :
  ds <> [] -> forallb is_digit ds = true -> str_unsigned_decimal ds = true.
Proof.
  intros Hne Hds. unfold str_unsigned_decimal.
  rewrite (dropwhile_all _ _ Hds), (takewhile_all _ _ Hds).
  destruct ds as [|c r]; [easy|]. cbn in Hds. apply andb_prop in Hds as [Hc _].
  destruct (is_digit_facts c Hc) as (_ & _ & _ & HI).
  cbn. rewrite HI. reflexivity.
Qed.

Lemma Z_to_string_chars z :
  exists sign ds,
    chars (Z_to_string z) = (sign ++ ds)%list /\
    (sign = [] \/ sign = ["-"%char]) /\ ds <> [] /\ forallb is_digit ds = true.
Proof.
  unfold Z_to_string. destruct z as [|p|p]; cbn [Z.to_int NilEmpty.string_of_int].
  - exists [], ["0"%char]. repeat split; auto; discriminate.
  - exists [], (chars (NilEmpty.string_of_uint (Pos.to_uint p))).
    repeat split; auto using uint_all_digits.
    destruct (uint_head_digit _ (Unsigned.to_uint_nonnil p)) as (c & r & -> & _).
    discriminate.
  - exists ["-"%char], (chars (NilEmpty.string_of_uint (Pos.to_uint p))).
    repeat split; auto using uint_all_digits.
    destruct (uint_head_digit _ (Unsigned.to_uint_nonnil p)) as (c & r & -> & _).
    discriminate.
Qed.

(** The decimal print of an integer is a numeric literal. *)
Lemma is_numeric_string_decimal z : is_numeric_string (Z_to_string z) = true.
Proof.
  destruct (Z_to_string_chars z) as (sign & ds & E & Hsign & Hne & Hds).
  unfold is_numeric_string. rewrite E, (trim_signed_digits sign ds Hsign Hne Hds).
  assert (Hd : str_decimal (sign ++ ds) = true).
  { destruct Hsign as [-> | ->].
    - destruct ds as [|c r]; [easy|]. unfold str_decimal. cbn [app].
      pose proof Hds as Hds'. cbn in Hds'. apply andb_prop in Hds' as [Hc _].
      destruct (is_digit_facts c Hc) as (_ & -> & -> & _). cbn [orb].
      now apply str_unsigned_decimal_digits.
    - unfold str_decimal. cbn. now apply str_unsigned_decimal_digits. }
  rewrite Hd. apply orb_true_r || (rewrite orb_true_r; reflexivity).
Qed.

Lemma Z_to_string_nonempty z : String.eqb (Z_to_string z) "" = false.
Proof.
  destruct (Z_to_string_chars z) as (sign & ds & E & Hsign & Hne & _).
  destruct (Z_to_string z) as [|c s]; [|reflexivity].
  cbn in E. destruct sign, ds; try discriminate. easy.
Qed.

Lemma entry_decimal_string z : entry (VStr (Z_to_string z)) = Fin z.
Proof.
  unfold entry. cbn [truthy]. rewrite Z_to_string_nonempty. cbn [negb].
  apply (parseInt_Fin z).
Qed.

(** X8: an integer given as a scalar, as a number or as its decimal
    string, is broadcast to all four sides. *)
Theorem formatOutline_integer (z : Z) :
  safe z = true ->
  formatOutline (VNum (Fin z)) = Normal [Fin z; Fin z; Fin z; Fin z] /\
  formatOutline (VStr (Z_to_string z)) = Normal [Fin z; Fin z; Fin z; Fin z].
Proof.
  intros _. split.
  - rewrite formatOutline_scalar by reflexivity. now rewrite parseInt_Fin.
  - rewrite formatOutline_scalar by (cbn; now rewrite is_numeric_string_decimal).
    change (parseInt (VStr (Z_to_string z))) with (parseInt (VNum (Fin z))).
    now rewrite parseInt_Fin.
Qed.

(** X8, on 25 and "25". *)
Lemma formatOutline_integer_witness :
  formatOutline (VNum (Fin 25)) = Normal [Fin 25; Fin 25; Fin 25; Fin 25] /\
  formatOutline (VStr "25") = Normal [Fin 25; Fin 25; Fin 25; Fin 25].
Proof. apply (formatOutline_integer 25). reflexivity. Defined.

(** X9: numbers passed as strings are converted: a sequence of four
    decimal strings comes out as the four integers (0 included, negative
    ones included). *)
Theorem formatOutline_decimal_strings (a b c d : Z) :
  safe a = true -> safe b = true -> safe c = true -> safe d = true ->
  formatOutline (VArr [VStr (Z_to_string a); VStr (Z_to_string b);
                       VStr (Z_to_string c); VStr (Z_to_string d)])
  = Normal [Fin a; Fin b; Fin c; Fin d].
Proof.
  intros _ _ _ _.
  rewrite (formatOutline_entries
             (VArr [VStr (Z_to_string a); VStr (Z_to_string b);
                    VStr (Z_to_string c); VStr (Z_to_string d)])
             (VStr (Z_to_string a)) (VStr (Z_to_string b))
             (VStr (Z_to_string c)) (VStr (Z_to_string d))
             (isNaN_array _ _ _) eq_refl eq_refl eq_refl eq_refl).
  now rewrite !entry_decimal_string.
Qed.

(** X9, on ["10", "0", "-3", "40"]. *)
Lemma formatOutline_decimal_strings_witness :
  formatOutline (VArr [VStr "10"; VStr "0"; VStr "-3"; VStr "40"])
  = Normal [Fin 10; Fin 0; Fin (-3); Fin 40].
Proof. apply (formatOutline_decimal_strings 10 0 (-3) 40); reflexivity. Defined.

Lemma formatOutline_shape v o :
  formatOutline v = Normal o ->
  exists x0 x1 x2 x3,
    o = [x0; x1; x2; x3] /\ forallb integer_or_NaN [x0; x1; x2; x3] = true.
Proof.
  intros Ho. destruct (isNaN v) eqn:E.
  - destruct (formatOutline_total v) as (x0 & x1 & x2 & x3 & E' & Hall).
    { intros i. destruct v; cbn in *; try discriminate; eauto. }
    rewrite E' in Ho. injection Ho as <-. eauto 6.
  - rewrite (formatOutline_scalar v E) in Ho. injection Ho as <-.
    do 4 eexists. split; [reflexivity|]. cbn. now rewrite !parseInt_integer_or_NaN.
Qed.

Lemma entry_num n : integer_or_NaN n = true -> entry (VNum n) = settle n.
Proof.
  destruct n as [z| | |]; try discriminate; intros _; [|reflexivity].
  unfold entry. cbn [truthy settle].
  destruct (Z.eqb_spec z 0) as [->|]; cbn [negb]; [reflexivity | apply parseInt_Fin].
Qed.

Lemma formatOutline_num_array x0 x1 x2 x3 :
  forallb integer_or_NaN [x0; x1; x2; x3] = true ->
  formatOutline (num_array [x0; x1; x2; x3])
  = Normal [settle x0; settle x1; settle x2; settle x3].
Proof.
  cbn [forallb]. rewrite andb_true_r.
  intros [H0 [H1 [H2 H3]%andb_prop]%andb_prop]%andb_prop.
  unfold num_array. cbn [List.map].
  rewrite (formatOutline_entries (VArr [VNum x0; VNum x1; VNum x2; VNum x3])
             (VNum x0) (VNum x1) (VNum x2) (VNum x3)
             (isNaN_array _ _ _) eq_refl eq_refl eq_refl eq_refl).
  now rewrite !entry_num.
Qed.

Lemma settle_integer n : integer_or_NaN (settle n) = true /\ is_integer (settle n) = true
                         /\ settle (settle n) = settle n.
Proof. now destruct n. Qed.

(** X10: applying formatOutline to its own result turns every NaN into 0
    and keeps the integers; from then on the result is a fixed point, four
    integers. *)
Theorem formatOutline_settles (v : value) (o : list num) :
  formatOutline v = Normal o -> forallb in_range o = true ->
  formatOutline (num_array o) = Normal (List.map settle o) /\
  formatOutline (num_array (List.map settle o)) = Normal (List.map settle o) /\
  forallb is_integer (List.map settle o) = true.
Proof.
  intros (x0 & x1 & x2 & x3 & -> & Hall)%formatOutline_shape _.
  cbn [List.map]. split; [now apply formatOutline_num_array|]. split.
  - rewrite formatOutline_num_array.
    + now rewrite !(proj2 (proj2 (settle_integer _))).
    + cbn. now rewrite !(proj1 (settle_integer _)).
  - cbn. now rewrite !(proj1 (proj2 (settle_integer _))).
Qed.

(** X10, on the sequence ["abc", "7px", 3]. *)
Lemma formatOutline_settles_witness :
  formatOutline (VArr [VStr "abc"; VStr "7px"; VNum (Fin 3)])
  = Normal [NaN; Fin 7; Fin 3; Fin 0] /\
  formatOutline (num_array [NaN; Fin 7; Fin 3; Fin 0])
  = Normal [Fin 0; Fin 7; Fin 3; Fin 0] /\
  formatOutline (num_array [Fin 0; Fin 7; Fin 3; Fin 0])
  = Normal [Fin 0; Fin 7; Fin 3; Fin 0] /\
  forallb is_integer [Fin 0; Fin 7; Fin 3; Fin 0] = true.
Proof.
  split; [reflexivity|].
  apply (formatOutline_settles (VArr [VStr "abc"; VStr "7px"; VNum (Fin 3)])
           [NaN; Fin 7; Fin 3; Fin 0]); reflexivity.
Defined.

(** X11: recalculate() on an instance whose outline is what formatOutline
    once returned replaces its NaN sides by 0 and keeps the others; the
    cached rectangle, the alarm and the log are as before.  (So the first
    recalculate() revives a zone that an unreadable entry had disabled.) *)
Theorem recalculate_settles (h : Host) (l : loc) (w : World) (p : Perimeter)
    (v : value) (o : list num) :
  heap w !! l = Some (Built p) ->
  formatOutline v = Normal o -> forallb in_range o = true ->
  outline p = num_array o ->
  let w' := snd (recalculate h (Some l) w) in
  fst (recalculate h (Some l) w) = Ret tt /\
  outlineOf w' l = Some (num_array (List.map settle o)) /\
  forallb is_integer (List.map settle o) = true /\
  rectangle w' l = Some (rects p).
Proof.
  intros Hl Hv _ Ho. cbv zeta.
  destruct (formatOutline_shape v o Hv) as (x0 & x1 & x2 & x3 & -> & Hall).
  pose proof (formatOutline_num_array x0 x1 x2 x3 Hall) as H1.
  rewrite <- Ho in H1.
  destruct (recalculate_on_instance h l w p _ Hl H1) as (Hret & p' & Hl' & Ho' & Hr').
  unfold outlineOf, rectangle. rewrite Hl', Ho', Hr'.
  repeat split; auto. cbn. now rewrite !(proj1 (proj2 (settle_integer _))).
Qed.

(** X11, on the instance built with the outline ["abc", 0, 0, 0]. *)
Lemma recalculate_settles_witness :
  let w := guarded in_body (VArr [VStr "abc"; VNum (Fin 0); VNum (Fin 0); VNum (Fin 0)]) in
  let w' := snd (recalculate (page in_body) (Some 0%nat) w) in
  fst (recalculate (page in_body) (Some 0%nat) w) = Ret tt /\
  outlineOf w' 0%nat = Some zeros /\
  forallb is_integer [Fin 0; Fin 0; Fin 0; Fin 0] = true /\
  rectangle w' 0%nat = Some sample_box.
Proof.
  apply (recalculate_settles (page in_body) 0%nat
           (guarded in_body (VArr [VStr "abc"; VNum (Fin 0); VNum (Fin 0); VNum (Fin 0)]))
           (with_outline (num_array [NaN; Fin 0; Fin 0; Fin 0])
              {| options := sample_options (ById "zone")
                              (VArr [VStr "abc"; VNum (Fin 0); VNum (Fin 0); VNum (Fin 0)]);
                 breaches := []; alarm := false; outline := VUndef;
                 target := Some 0%nat; boundary := None; rects := sample_box;
                 monitor_event := None |})
           (VArr [VStr "abc"; VNum (Fin 0); VNum (Fin 0); VNum (Fin 0)])
           [NaN; Fin 0; Fin 0; Fin 0]); reflexivity.
Defined.

(** ** Construction *)

Lemma alloc_then_write (hp : list Object) (o x : Object) :
  <[length hp := o]> (hp ++ [x])%list = (hp ++ [o])%list.
Proof.
  rewrite insert_app_r_alt by lia. now rewrite Nat.sub_diag.
Qed.

Lemma reflow_own_outline p o :
  outline p = num_array o -> exists b, reflow p (outline p) = Normal b.
Proof.
  intros Ho. unfold reflow. rewrite Ho.
  destruct (formatOutline_truthy (num_array o) eq_refl) as [o' Ho'].
  destruct (truthy (num_array o)); rewrite Ho'; eauto.
Qed.

(** X12: what a successful construction leaves behind, on a host whose
    objects all follow one event model: the new instance, Armed, with an
    empty log, the formatted outline and the resolved rectangle, appended
    to the registry; with the debug option an overlay, appended to the
    body first; then four listeners (mousemove on the monitor element or
    the document, resize on the window, DOMMouseScroll and mousewheel on
    the document), under on-prefixed names with attachEvent, and none at
    all, silently, on a host with neither model.  No callback is
    invoked. *)
Theorem new_Perimeter_builds (h : Host) (m : EventModel) (with_new : bool)
    (opts : Options) (w : World) (o : list num) (t : handle) (r : Rect) :
  unusable (Some opts) = false ->
  formatOutline (opt_outline opts) = Normal o ->
  resolve_target h (opt_target opts) = Some t ->
  getClientRect h (Some t) = Normal r ->
  (forall obj, event_model h obj = m) ->
  let l := length (heap w) in
  let p := {| options := opts; breaches := []; alarm := false;
              outline := num_array o; target := Some t; boundary := None;
              rects := r; monitor_event := None |} in
  new_Perimeter h with_new (Some opts) w
  = (Ret (Some l),
     {| heap := (heap w ++ [Built (with_boundary (overlay_of opts p) p)])%list;
        instances := (instances w ++ [l])%list;
        host_calls := (host_calls w ++
                       (if opt_debug opts then [AppendChild l] else []) ++
                       bindings m l opts)%list;
        invoked := invoked w |}).
Proof.
  intros Hu Ho Ht Hr Hm. cbv zeta.
  unfold new_Perimeter. rewrite Hu. unfold bind, alloc, lift. rewrite Ho.
  unfold ret. rewrite Ht, Hr. cbn [write heap with_heap fst snd].
  rewrite alloc_then_write.
  unfold init, bind, read. cbn [heap with_heap].
  rewrite (list_lookup_middle (heap w) [] _ (length (heap w)) eq_refl).
  cbn [target]. unfold register.
  cbn [heap instances host_calls invoked with_heap].
  unfold _addEventListener. rewrite !Hm. unfold overlay_of. cbn [outline].
  destruct (opt_debug opts).
  - unfold new_Boundary, bind, lift. cbn [outline].
    match goal with
    | |- context [reflow ?p _] =>
        destruct (reflow_own_outline p o eq_refl) as [b Hb]; cbn [outline] in Hb;
        rewrite Hb
    end.
    destruct m; cbn; rewrite alloc_then_write, <- ?app_assoc; reflexivity.
  - destruct m; cbn; rewrite <- ?app_assoc, ?app_nil_r; reflexivity.
Qed.

(** X12, on a host with attachEvent only. *)
Lemma new_Perimeter_builds_witness :
  let h := page_with in_body Microsoft 0 0 in
  let opts := sample_options (ById "zone") (VNum (Fin 10)) in
  new_Perimeter h false (Some opts) empty_world
  = (Ret (Some 0%nat),
     {| heap := [Built {| options := opts; breaches := []; alarm := false;
                          outline := num_array [Fin 10; Fin 10; Fin 10; Fin 10];
                          target := Some 0%nat; boundary := None;
                          rects := sample_box; monitor_event := None |}];
        instances := [0%nat];
        host_calls := [AttachEvent Document "onmousemove" (Observe 0%nat);
                       AttachEvent Window "onresize" Recalculate;
                       AttachEvent Document "onDOMMouseScroll" (Observe 0%nat);
                       AttachEvent Document "onmousewheel" (Observe 0%nat)];
        invoked := [] |}).
Proof.
  apply (new_Perimeter_builds (page_with in_body Microsoft 0 0) Microsoft false
           (sample_options (ById "zone") (VNum (Fin 10))) empty_world
           [Fin 10; Fin 10; Fin 10; Fin 10] 0%nat sample_box);
    try reflexivity.
Defined.

(** X13: construction is all or nothing.  Unless the options are usable
    and the target resolves to an element with a box, the constructor
    leaves the registry, the listeners and the callbacks as they were, and
    no object with fields appears, whether it returns or throws. *)
Theorem new_Perimeter_all_or_nothing (h : Host) (with_new : bool)
    (options : option Options) (w : World) :
  let w' := snd (new_Perimeter h with_new options w) in
  (instances w' = instances w /\ host_calls w' = host_calls w /\
   invoked w' = invoked w /\
   forall l p, heap w' !! l = Some (Built p) -> heap w !! l = Some (Built p)) \/
  (exists opts t r,
      options = Some opts /\ unusable options = false /\
      resolve_target h (opt_target opts) = Some t /\
      getClientRect h (Some t) = Normal r).
Proof.
  cbv zeta.
  assert (Hfresh : forall l p,
             (heap w ++ [Bare])%list !! l = Some (Built p) -> heap w !! l = Some (Built p)).
  { intros l p Hl. destruct (decide (l < length (heap w))%nat) as [Hlt|Hge].
    - now rewrite lookup_app_l in Hl.
    - rewrite lookup_app_r in Hl by lia.
      destruct (l - length (heap w))%nat as [|[|k]]; discriminate. }
  destruct options as [opts|].
  - destruct (unusable (Some opts)) eqn:Hu.
    + left. unfold new_Perimeter. rewrite Hu. destruct with_new; cbn; auto.
    + destruct (getClientRect h (resolve_target h (opt_target opts))) as [r|e] eqn:Hr.
      * right. destruct (resolve_target h (opt_target opts)) as [t|] eqn:Ht;
          [|discriminate]. eauto 8.
      * left. rewrite (new_Perimeter_resolves h with_new opts w e Hu Hr). cbn. auto.
  - left. destruct with_new; cbn; auto.
Qed.

(** ** The broadcast *)

(** X14: the broadcast visits the registry from its last entry and stops
    at the first instance whose rectangle cannot be resolved: when that is
    the instance registered last, the error leaves recalculate and no
    instance at all has been refreshed. *)
Theorem broadcast_stops_at_failure (h : Host) (w : World) (earlier : list loc)
    (l : loc) (p : Perimeter) (e : error) :
  instances w = (earlier ++ [l])%list ->
  heap w !! l = Some (Built p) ->
  getClientRect h (target p) = Abrupt e ->
  recalculate h None w = (Throw e, w).
Proof.
  intros Hi Hl Hr. cbn [recalculate]. unfold bind, registry.
  rewrite Hi, rev_unit. cbn [broadcast]. unfold bind, refresh_rects, bind, read.
  rewrite Hl. unfold lift. now rewrite Hr.
Qed.

(** X14, with two instances: the target of the second has lost its box,
    the rectangle of the first stays stale. *)
Lemma broadcast_stops_at_failure_witness :
  let w := {| heap := [Built armed_perimeter;
                       Built {| options := sample_options (ByRef 5%nat) zeros;
                                breaches := []; alarm := false; outline := zeros;
                                target := Some 5%nat; boundary := None;
                                rects := sample_box; monitor_event := None |}];
              instances := [0%nat; 1%nat]; host_calls := []; invoked := [] |} in
  recalculate (page pushed_down) None w = (Throw (Error unsupported), w).
Proof.
  cbv zeta.
  apply (broadcast_stops_at_failure (page pushed_down) _ [0%nat] 1%nat
           {| options := sample_options (ByRef 5%nat) zeros;
              breaches := []; alarm := false; outline := zeros;
              target := Some 5%nat; boundary := None;
              rects := sample_box; monitor_event := None |}
           (Error unsupported)); reflexivity.
Defined.

(** ** Geometry *)



(** X16: the resolved rectangle is in document coordinates.  When the page
    scrolls by (dx, dy), so that the box of the element moves by
    (-dx, -dy) in the viewport, getClientRect returns the same
    rectangle. *)
Theorem getClientRect_scroll_stable (h h' : Host) (t : handle) (box : Box)
    (dx dy : Z) :
  getBoundingClientRect (element h t) = Some box ->
  getBoundingClientRect (element h' t)
  = Some {| box_top := box_top box - dy; box_left := box_left box - dx;
            box_width := box_width box; box_height := box_height box |} ->
  offsetWidth (element h' t) = offsetWidth (element h t) ->
  offsetHeight (element h' t) = offsetHeight (element h t) ->
  docElem_clientTop h' = docElem_clientTop h ->
  docElem_clientLeft h' = docElem_clientLeft h ->
  getScrollPos h' = (fst (getScrollPos h) + dy, snd (getScrollPos h) + dx) ->
  getClientRect h' (Some t) = getClientRect h (Some t).
Proof.
  intros Hb Hb' Hw Hh Hct Hcl Hs. unfold getClientRect.
  rewrite Hb, Hb', Hw, Hh, Hct, Hcl, Hs. cbn [fst snd box_top box_left box_width box_height].
  f_equal. f_equal; lia.
Qed.

(** X16, on the sample page scrolled by 30 down and 20 to the right. *)
Lemma getClientRect_scroll_stable_witness :
  getClientRect (page_with in_body_scrolled W3C 30 20) (Some 0%nat)
  = getClientRect (page in_body) (Some 0%nat).
Proof.
  apply (getClientRect_scroll_stable (page in_body)
           (page_with in_body_scrolled W3C 30 20) 0%nat
           {| box_top := 100; box_left := 100; box_width := 50; box_height := 50 |}
           20 30); reflexivity.
Defined.

(** X17: the debug overlay has the size of the detection zone.  For an
    outline of integers the overlay is as wide and as high as the zone of
    detect (right - maxLeft, bottom - maxTop), and it is placed at the
    cached rectangle's corner moved out by the top and left outline. *)
Theorem overlay_spans_zone (h : Host) (p : Perimeter) (t : handle) (a b c d : Z) :
  outline p = num_array [Fin a; Fin b; Fin c; Fin d] ->
  safe a = true -> safe b = true -> safe c = true -> safe d = true ->
  let z := zone h t (rects p) [Fin a; Fin b; Fin c; Fin d] in
  exists bd,
    reflow p VUndef = Normal bd /\
    style_width bd = px (num_sub (right z) (maxLeft z)) /\
    style_height bd = px (num_sub (bottom z) (maxTop z)) /\
    style_top bd = px (Fin (rect_top (rects p) - a)) /\
    style_left bd = px (Fin (rect_left (rects p) - d)).
Proof.
  intros Ho _ _ _ _. cbv zeta. rewrite zone_integers. cbv zeta.
  unfold reflow. cbn [truthy]. rewrite Ho.
  rewrite (formatOutline_num_array (Fin a) (Fin b) (Fin c) (Fin d) eq_refl).
  cbn [settle]. eexists. split; [reflexivity|].
  cbn [style_width style_height style_top style_left side nth
       maxTop maxLeft bottom right num_add num_sub num_neg].
  repeat split; do 2 f_equal; lia.
Qed.

(** X17, on the sample instance with the outline [10, 20, 30, 40]. *)
Lemma overlay_spans_zone_witness :
  let p := with_outline (num_array [Fin 10; Fin 20; Fin 30; Fin 40]) armed_perimeter in
  let z := zone (page in_body) 0%nat sample_box [Fin 10; Fin 20; Fin 30; Fin 40] in
  exists bd,
    reflow p VUndef = Normal bd /\
    style_width bd = px (num_sub (right z) (maxLeft z)) /\
    style_height bd = px (num_sub (bottom z) (maxTop z)) /\
    style_top bd = px (Fin (100 - 10)) /\
    style_left bd = px (Fin (100 - 40)).
Proof.
  apply (overlay_spans_zone (page in_body)
           (with_outline (num_array [Fin 10; Fin 20; Fin 30; Fin 40]) armed_perimeter)
           0%nat 10 20 30 40); reflexivity.
Defined.

(** ** recalculate when nothing has changed *)

Lemma with_heap_same w : with_heap (heap w) w = w.
Proof. now destruct w. Qed.

Lemma write_same l p w :
  heap w !! l = Some (Built p) -> write l (Built p) w = (Ret tt, w).
Proof.
  intros Hl. unfold write. rewrite (list_insert_id _ _ _ Hl). now rewrite with_heap_same.
Qed.

Lemma with_outline_same p : with_outline (outline p) p = p.
Proof. now destruct p. Qed.

Lemma with_rects_same p : with_rects (rects p) p = p.
Proof. now destruct p. Qed.

(** X18: recalculate() on an instance without overlay whose outline is
    four integers changes nothing: the world is the same afterwards. *)
Theorem recalculate_instance_noop (h : Host) (l : loc) (w : World) (p : Perimeter)
    (a b c d : Z) :
  heap w !! l = Some (Built p) ->
  outline p = num_array [Fin a; Fin b; Fin c; Fin d] ->
  safe a = true -> safe b = true -> safe c = true -> safe d = true ->
  boundary p = None ->
  recalculate h (Some l) w = (Ret tt, w).
Proof.
  intros Hl Ho _ _ _ _ Hb. cbn [recalculate]. unfold bind, read. rewrite Hl.
  unfold lift. rewrite Ho.
  rewrite (formatOutline_num_array (Fin a) (Fin b) (Fin c) (Fin d) eq_refl).
  cbn [settle List.map]. unfold ret at 1. rewrite <- Ho, with_outline_same.
  rewrite (write_same l p w Hl), Hb.
  now destruct (opt_debug (options p)).
Qed.

(** X18, on the sample instance. *)
Lemma recalculate_instance_noop_witness :
  recalculate (page pushed_down) (Some 0%nat) (guarded in_body zeros)
  = (Ret tt, guarded in_body zeros).
Proof.
  apply (recalculate_instance_noop (page pushed_down) 0%nat (guarded in_body zeros)
           armed_perimeter 0 0 0 0); reflexivity.
Defined.

Lemma refresh_rects_noop h l w p :
  heap w !! l = Some (Built p) ->
  getClientRect h (target p) = Normal (rects p) -> boundary p = None ->
  refresh_rects h l w = (Ret tt, w).
Proof.
  intros Hl Hr Hb. unfold refresh_rects, bind, read. rewrite Hl.
  unfold lift. rewrite Hr. unfold ret at 1. rewrite with_rects_same.
  rewrite (write_same l p w Hl), Hb.
  now destruct (opt_debug (options p)).
Qed.

(** X19: a resize that moved nothing changes nothing.  When the cached
    rectangle of every registered instance is what getClientRect answers
    now (and none has an overlay), the broadcast returns and the world is
    the same afterwards. *)
Theorem broadcast_noop (h : Host) (w : World) :
  (forall l, In l (instances w) ->
     exists p, heap w !! l = Some (Built p) /\
               getClientRect h (target p) = Normal (rects p) /\
               boundary p = None) ->
  recalculate h None w = (Ret tt, w).
Proof.
  intros Hall. cbn [recalculate]. unfold bind, registry.
  assert (Hrev : forall l, In l (List.rev (instances w)) ->
             exists p, heap w !! l = Some (Built p) /\
                       getClientRect h (target p) = Normal (rects p) /\
                       boundary p = None).
  { intros l Hl. apply Hall. now apply in_rev. }
  clear Hall. induction (List.rev (instances w)) as [|l rest IH]; [reflexivity|].
  cbn [broadcast]. unfold bind.
  destruct (Hrev l (or_introl eq_refl)) as (p & Hl & Hr & Hb).
  rewrite (refresh_rects_noop h l w p Hl Hr Hb).
  apply IH. intros l' Hl'. apply Hrev. now right.
Qed.

(** X19, on the sample instance under the layout it was built in. *)
Lemma broadcast_noop_witness :
  recalculate (page in_body) None (guarded in_body zeros)
  = (Ret tt, guarded in_body zeros).
Proof.
  apply (broadcast_noop (page in_body) (guarded in_body zeros)).
  intros l [<- | []]. exists armed_perimeter. repeat split.
Defined.

(** ** A few more edges *)

(** X20: the two tests of detect never hold together, whatever the zone
    (NaN and infinite bounds included) and the position. *)
Theorem tests_exclusive (z : Zone) (x y : Z) :
  breach_test z x y && leave_test z x y = false.
Proof.
  destruct (breach_test z x y) eqn:Hb; [|reflexivity].
  now rewrite (breach_excludes_leave z x y Hb).
Qed.

(** X21: a sequence with a single integer is taken for a scalar: the
    integer goes to all four sides, not to the top alone.  The empty
    sequence gives four NaN. *)
Theorem formatOutline_single_entry_sequence (z : Z) :
  safe z = true ->
  formatOutline (VArr [VNum (Fin z)]) = Normal [Fin z; Fin z; Fin z; Fin z] /\
  formatOutline (VArr []) = Normal [NaN; NaN; NaN; NaN].
Proof.
  intros _. split; [|reflexivity].
  rewrite formatOutline_scalar.
  - change (parseInt (VArr [VNum (Fin z)])) with (parseInt (VNum (Fin z))).
    now rewrite parseInt_Fin.
  - unfold isNaN. change (ToString (VArr [VNum (Fin z)])) with (Z_to_string z).
    now rewrite is_numeric_string_decimal.
Qed.

(** X21, on [7]. *)
Lemma formatOutline_single_entry_sequence_witness :
  formatOutline (VArr [VNum (Fin 7)]) = Normal [Fin 7; Fin 7; Fin 7; Fin 7] /\
  formatOutline (VArr []) = Normal [NaN; NaN; NaN; NaN].
Proof. apply (formatOutline_single_entry_sequence 7). reflexivity. Defined.

(** X22: the object [new Perimeter(..)] hands back for unusable options
    has no fields, and recalculate() on it throws a TypeError (formatOutline
    reads an index of undefined); the world is not changed by the
    attempt. *)
Theorem recalculate_on_inert_throws (h : Host) (options : option Options) (w : World) :
  unusable options = true ->
  let w1 := snd (new_Perimeter h true options w) in
  fst (new_Perimeter h true options w) = Ret (Some (length (heap w))) /\
  heap w1 !! length (heap w) = Some Bare /\
  recalculate h (Some (length (heap w))) w1 = (Throw TypeError, w1).
Proof.
  intros Hu. cbv zeta.
  assert (E : new_Perimeter h true options w
              = (Ret (Some (length (heap w))), with_heap (heap w ++ [Bare]) w)).
  { unfold new_Perimeter. destruct options as [opts|]; [rewrite Hu|]; reflexivity. }
  rewrite E. cbn [fst snd].
  assert (Hl : heap (with_heap (heap w ++ [Bare]) w) !! length (heap w) = Some Bare)
    by (cbn; now apply list_lookup_middle).
  split; [reflexivity|]. split; [exact Hl|].
  cbn [recalculate]. unfold bind, read. now rewrite Hl.
Qed.

(** X22, for [new Perimeter()] without options. *)
Lemma recalculate_on_inert_throws_witness :
  let w1 := snd (new_Perimeter (page in_body) true None empty_world) in
  fst (new_Perimeter (page in_body) true None empty_world) = Ret (Some 0%nat) /\
  heap w1 !! 0%nat = Some Bare /\
  recalculate (page in_body) (Some 0%nat) w1 = (Throw TypeError, w1).
Proof.
  apply (recalculate_on_inert_throws (page in_body) None empty_world). reflexivity.
Defined.
